(** * Multimodal RAG pipeline: segmentation, embedding dispatch, hybrid
      ranking, context assembly and citation extraction.

    Shallow embedding of
      - app/core/text_processor.py   ([chunk_text])
      - app/core/embedder.py         ([embed_text], [embed_image], [embed_code],
                                      [embed_chunk])
      - app/db/vector_store.py       (the distance-to-confidence line of
                                      [search_vectors])
      - app/core/retriever.py        ([hybrid_search],
                                      [group_results_by_document],
                                      [build_context_for_llm])
      - app/core/llm.py              ([extract_citations])

    Conventions.
      - A Python [str] is a [string] whose characters are code points below
        256; the character classes of [str.isspace], [str.lower] and of the
        [re] classes [\w] and [\d] are written out for that range.
      - A Python [float] confidence is an exact rational ([Q]); Python's
        two-argument [min] is [py_min].
      - The result dictionaries built by [retrieve_context] are records; the
        dictionaries that [hybrid_search] updates in place live in a heap
        addressed by object identity, and a result list is a list of
        addresses. *)

From Stdlib Require Import ZArith QArith Lqa Ascii String DecimalString DecimalZ
  Sorted Lia.
From stdpp Require Import base option list gmap strings.

Local Open Scope string_scope.
Local Open Scope list_scope.

(** ** Python string primitives *)

Module PyStr.

Definition code (c : ascii) : N := N_of_ascii c.

Definition in_range (lo hi : N) (c : ascii) : bool :=
  ((lo <=? code c) && (code c <=? hi))%N.

(** [str.isspace] on one character. *)
Definition is_space (c : ascii) : bool :=
  in_range 9 13 c || in_range 28 32 c
  || (code c =? 133)%N || (code c =? 160)%N.

(** The class [\d] of [re] on [str] patterns. *)
Definition is_digit (c : ascii) : bool := in_range 48 57 c.

(** [str.isalpha] on one character. *)
Definition is_alpha (c : ascii) : bool :=
  in_range 65 90 c || in_range 97 122 c
  || (code c =? 170)%N || (code c =? 181)%N || (code c =? 186)%N
  || in_range 192 214 c || in_range 216 246 c || in_range 248 255 c.

(** The class [\w] of [re] on [str] patterns: alphanumeric or underscore. *)
Definition is_word (c : ascii) : bool :=
  is_alpha c || is_digit c || (code c =? 95)%N
  || (code c =? 178)%N || (code c =? 179)%N || (code c =? 185)%N
  || in_range 188 190 c.

Definition lower_char (c : ascii) : ascii :=
  if in_range 65 90 c || in_range 192 214 c || in_range 216 222 c
  then ascii_of_N (code c + 32)
  else c.

(** [s.lower()] *)
Fixpoint lower (s : string) : string :=
  match s with
  | EmptyString => EmptyString
  | String c r => String (lower_char c) (lower r)
  end.

Definition nl : string := String (ascii_of_N 10) EmptyString.
Definition nlnl : string := nl +:+ nl.

(** Truthiness of a string: [if s:] *)
Definition truthy (s : string) : bool :=
  match s with EmptyString => false | _ => true end.

Fixpoint lstrip (s : string) : string :=
  match s with
  | EmptyString => EmptyString
  | String c r => if is_space c then lstrip r else s
  end.

Fixpoint rstrip (s : string) : string :=
  match s with
  | EmptyString => EmptyString
  | String c r =>
      let r' := rstrip r in
      if is_space c && negb (truthy r') then EmptyString else String c r'
  end.

(** [s.strip()] *)
Definition strip (s : string) : string := rstrip (lstrip s).

(** [s.split(sep)] for a non-empty separator: [cur] is the field being
    read, [skip] the number of characters of a separator still to pass. *)
Fixpoint split_sep_aux (sep : string) (skip : nat) (cur : string)
  (s : string) : list string :=
  match s with
  | EmptyString => [cur]
  | String c r =>
      match skip with
      | S k => split_sep_aux sep k cur r
      | O =>
          if String.prefix sep s
          then cur :: split_sep_aux sep (String.length sep - 1) EmptyString r
          else split_sep_aux sep 0 (cur +:+ String c EmptyString) r
      end
  end.

Definition split_sep (sep s : string) : list string :=
  split_sep_aux sep 0 EmptyString s.

(** [s.split()]: the maximal runs of non-whitespace characters. *)
Fixpoint split_ws_aux (cur : string) (s : string) : list string :=
  match s with
  | EmptyString => if truthy cur then [cur] else []
  | String c r =>
      if is_space c
      then (if truthy cur then cur :: split_ws_aux EmptyString r
            else split_ws_aux EmptyString r)
      else split_ws_aux (cur +:+ String c EmptyString) r
  end.

Definition split_ws (s : string) : list string := split_ws_aux EmptyString s.

(** [sep.join(l)] *)
Definition join (sep : string) (l : list string) : string :=
  String.concat sep l.

(** [l[-k:]]: the last [k] elements, and the whole list when [k = 0]. *)
Definition slice_last {A} (k : nat) (l : list A) : list A :=
  match k with
  | O => l
  | _ => drop (length l - k) l
  end.

(** [needle in hay] *)
Fixpoint contains (needle hay : string) : bool :=
  String.prefix needle hay
  || match hay with
     | EmptyString => false
     | String _ r => contains needle r
     end.

(** Number of (possibly overlapping) positions of [hay] at which [needle]
    starts. *)
Fixpoint occurrences (needle hay : string) : nat :=
  match hay with
  | EmptyString => 0
  | String _ r =>
      (if String.prefix needle hay then 1 else 0) + occurrences needle r
  end.

(** [c * n] for a one-character string [c]. *)
Fixpoint replicate_char (n : nat) (c : ascii) : string :=
  match n with
  | O => EmptyString
  | S k => String c (replicate_char k c)
  end.

(** [str(n)] for an [int] *)
Definition str_of_Z (n : Z) : string :=
  NilEmpty.string_of_int (Z.to_int n).

End PyStr.

(** ** Segmenter: app/core/text_processor.py *)

Module Segmenter.
Import PyStr.

Definition TEXT_CHUNK_SIZE : nat := 1000.
Definition TEXT_CHUNK_OVERLAP : nat := 200.

(** One iteration of the loop of [chunk_text] over the paragraphs; the
    state is [(chunks, current_chunk)]. *)
Definition chunk_step (st : list string * string) (paragraph : string)
  : list string * string :=
  let '(chunks, current_chunk) := st in
  if (TEXT_CHUNK_SIZE <? String.length current_chunk + String.length paragraph)%nat
     && truthy current_chunk
  then
    let words := split_ws current_chunk in
    let overlap_words :=
      slice_last (Nat.min (length words) (TEXT_CHUNK_OVERLAP / 10)) words in
    (chunks ++ [strip current_chunk],
     join " " overlap_words +:+ nlnl +:+ paragraph)
  else if truthy current_chunk
  then (chunks, current_chunk +:+ nlnl +:+ paragraph)
  else (chunks, paragraph).

Definition paragraphs_of (text : string) : list string :=
  filter (fun p => truthy p = true) (map strip (split_sep nlnl text)).

Definition chunk_text (text : string) : list string :=
  if negb (truthy text) then []
  else
    let '(chunks, current_chunk) :=
      fold_left chunk_step (paragraphs_of text) ([], EmptyString) in
    if truthy current_chunk then chunks ++ [strip current_chunk]
    else chunks.

End Segmenter.

(** ** Exceptions *)

Module Py.

(** The exception classes the modelled code raises or catches;
    [RuntimeError] stands for any other subclass of [Exception]. *)
Inductive exn : Type := ValueError | IndexError | RuntimeError.

Inductive outcome (A : Type) : Type :=
| Returns (a : A)
| Raises (e : exn).
Arguments Returns {A} a.
Arguments Raises {A} e.

Definition returns {A} (o : outcome A) : bool :=
  match o with Returns _ => true | Raises _ => false end.

End Py.

(** ** Embedding dispatcher: app/core/embedder.py *)

Module Embedder.
Import PyStr Py.

Definition vector : Type := list Q.

(** [np.zeros(n)] *)
Definition zeros (n : nat) : vector := replicate n 0%Q.

(** A computation that prints lines and then returns or raises. *)
Definition run (A : Type) : Type := (list string * outcome A)%type.

Definition ret {A} (a : A) : run A := ([], Returns a).
Definition bind {A B} (m : run A) (f : A -> run B) : run B :=
  match m with
  | (out, Returns a) => let '(out', r) := f a in (out ++ out', r)
  | (out, Raises e) => (out, Raises e)
  end.
Definition print (line : string) : run unit := ([line], Returns tt).
Definition call {A} (o : outcome A) : run A := ([], o).

(** [try: m  except Exception as e: handler e] *)
Definition try_except {A} (m : run A) (handler : exn -> run A) : run A :=
  match m with
  | (out, Raises e) => let '(out', r) := handler e in (out ++ out', r)
  | (out, Returns a) => (out, Returns a)
  end.

Notation "x <- m ;; k" := (bind m (fun x => k))
  (at level 100, m at level 90, right associativity).
Notation "m ;;; k" := (bind m (fun _ => k))
  (at level 100, right associativity).

(** The external collaborators of the module: the models loaded at import
    time and the file system. Each call may raise. *)
Record models : Type := {
  has_clip : bool;
  (** [text_embedding_model.encode(text, show_progress_bar=False)] *)
  encode : string -> outcome vector;
  (** [text_embedding_model.get_sentence_embedding_dimension()] *)
  get_sentence_embedding_dimension : nat;
  (** [os.path.exists] *)
  path_exists : string -> bool;
  (** [Image.open], the CLIP processor and model, and the normalisation *)
  clip_image_features : string -> outcome vector;
  (** [Image.open] and [pytesseract.image_to_string] *)
  image_to_string : string -> outcome string
}.

(** The chunk dictionary read by [embed_chunk], each key with the default
    that [chunk.get] gives it. *)
Record chunk : Type := {
  chunk_type : string;
  content : string;
  image_path : string;
  language : string
}.

Record code_info : Type := {
  snippet : string;
  code_language : string;
  functions : list string
}.

Section WithModels.
Variable M : models.

Definition embed_text (text : string) : run vector :=
  if negb (truthy text)
  then ret (zeros (get_sentence_embedding_dimension M))
  else call (encode M text).

(** app/core/image_processor.py, [extract_text_from_image] *)
Definition extract_text_from_image (path : string) : run string :=
  try_except
    (text <- call (image_to_string M path) ;; ret (strip text))
    (fun _ => print "Error extracting text from image" ;;; ret EmptyString).

Definition embed_image (path : string) : run vector :=
  if negb (path_exists M path)
  then ret (zeros 512)
  else
    try_except
      (if has_clip M
       then call (clip_image_features M path)
       else
         image_text <- extract_text_from_image path ;;
         if truthy image_text
         then embed_text image_text
         else ret (zeros (get_sentence_embedding_dimension M)))
      (fun _ =>
         print "Error embedding image" ;;;
         ret (zeros (if has_clip M then 512
                     else get_sentence_embedding_dimension M))).

Definition embed_code (info : code_info) : run vector :=
  if negb (truthy (snippet info))
  then ret (zeros (get_sentence_embedding_dimension M))
  else
    let combined_text := "Language: " +:+ code_language info +:+ nl in
    let combined_text :=
      match functions info with
      | [] => combined_text
      | fs => combined_text +:+ "Functions: " +:+ join ", " fs +:+ nlnl
      end in
    embed_text (combined_text +:+ snippet info).

Definition embed_chunk (c : chunk) : run vector :=
  if String.eqb (chunk_type c) "text" then embed_text (content c)
  else if String.eqb (chunk_type c) "image" then embed_image (image_path c)
  else if String.eqb (chunk_type c) "code" then
    embed_code {| snippet := content c;
                  code_language := language c;
                  functions := [] |}
  else embed_text (content c).

End WithModels.

End Embedder.

(** ** Python's stable sort *)

Module PySort.

Section Sort.
Context {A : Type}.
(** [before y x]: the key of [y] is strictly smaller than the key of [x]
    (strictly greater under [reverse=True]). *)
Variable before : A -> A -> bool.

(** [x] stood to the left of every element of [l]: it passes only the
    elements that come strictly before it. *)
Fixpoint insert_stable (x : A) (l : list A) : list A :=
  match l with
  | [] => [x]
  | y :: l' => if before y x then y :: insert_stable x l' else x :: l
  end.

(** [l.sort(key=...)]: elements with equal keys keep their order. *)
Definition sort (l : list A) : list A := foldr insert_stable [] l.

(** [x] does not come after [y]. *)
Definition not_after (x y : A) : Prop := before y x = false.

End Sort.

End PySort.

(** ** Hybrid ranker and context assembler: app/core/retriever.py *)

Module Retriever.
Import PyStr.

(** The dictionary built by [retrieve_context] for one search hit.
    [page_number] is [None] or an [int]; the keys [image_path] and
    [language] are present for image and code chunks only. *)
Record result : Type := {
  chunk_id : string;
  document_id : string;
  document_name : string;
  chunk_type : string;
  content : string;
  page_number : option Z;
  confidence : Q;
  image_path : option string;
  language : option string
}.

(** [result["confidence"] = c] *)
Definition set_confidence (c : Q) (r : result) : result :=
  {| chunk_id := chunk_id r; document_id := document_id r;
     document_name := document_name r; chunk_type := chunk_type r;
     content := content r; page_number := page_number r;
     confidence := c;
     image_path := image_path r; language := language r |}.

Definition Qlt_bool (a b : Q) : bool := negb (Qle_bool b a).

(** [min(a, b)]: the first argument unless the second is strictly smaller. *)
Definition py_min (a b : Q) : Q := if Qlt_bool b a then b else a.

(** app/db/vector_store.py, [search_vectors]:
    [confidence = 1.0 - min(distance / 2.0, 0.95)] *)
Definition confidence_of_distance (distance : Q) : Q :=
  1 - py_min (distance / 2) 0.95.

(** *** Keywords: [re.findall(r'\b\w{4,}\b', query.lower())] *)

(** The longest prefix of word characters: what a greedy [\w*] consumes. *)
Fixpoint word_run (s : string) : string :=
  match s with
  | EmptyString => EmptyString
  | String c r => if is_word c then String c (word_run r) else EmptyString
  end.

(** The scan of [findall] for the pattern [\b\w{4,}\b]. [prev_word] tells
    whether the character to the left of the position is a word character
    and [skip] counts the characters of the last match still to pass. At a
    position where [\b] holds, the greedy [\w{4,}] takes the whole run of
    word characters; the closing [\b] then holds, and giving characters
    back cannot help since it leaves a word character on both sides. *)
Fixpoint findall_words (prev_word : bool) (skip : nat) (s : string)
  : list string :=
  match s with
  | EmptyString => []
  | String c r =>
      match skip with
      | S k => findall_words (is_word c) k r
      | O =>
          let w := word_run s in
          if xorb prev_word (is_word c) && (4 <=? String.length w)%nat
          then w :: findall_words (is_word c) (String.length w - 1) r
          else findall_words (is_word c) 0 r
      end
  end.

Definition keywords_of (query : string) : list string :=
  findall_words false 0 (lower query).

(** [sum(1 for keyword in keywords if keyword in content)] *)
Definition keyword_matches (keywords : list string) (content_lower : string)
  : nat :=
  length (filter (fun keyword => contains keyword content_lower = true)
            keywords).

(** [min(0.2, 0.05 * keyword_matches)] *)
Definition keyword_boost (matches : nat) : Q :=
  py_min 0.2 (0.05 * inject_Z (Z.of_nat matches)).

(** The body of the scoring loop, lines 99-108, on one dictionary. *)
Definition rescore (keywords : list string) (r : result) : result :=
  let matches := keyword_matches keywords (lower (content r)) in
  if (0 <? matches)%nat
  then set_confidence (py_min 0.99 (confidence r + keyword_boost matches)) r
  else r.

(** The dictionaries are objects: the heap maps an address to the current
    contents of the dictionary stored there. *)
Abbreviation heap := (gmap nat result).

Definition confidence_at (h : heap) (a : nat) : Q :=
  match h !! a with
  | Some r => confidence r
  | None => 0
  end.

Definition score_all (keywords : list string) (h : heap)
  (vector_results : list nat) : heap :=
  foldl (fun h a => alter (rescore keywords) a h) h vector_results.

(** [vector_results.sort(key=lambda x: x["confidence"], reverse=True)] *)
Definition sort_by_confidence (h : heap) (l : list nat) : list nat :=
  PySort.sort
    (fun y x => Qlt_bool (confidence_at h x) (confidence_at h y)) l.

Definition hybrid_search (query : string) (h : heap)
  (vector_results : list nat) : heap * list nat :=
  match keywords_of query with
  | [] => (h, vector_results)
  | keywords =>
      let h' := score_all keywords h vector_results in
      (h', sort_by_confidence h' vector_results)
  end.

(** The dictionaries a list of addresses denotes. *)
Definition deref (h : heap) (l : list nat) : list result :=
  omap (fun a => h !! a) l.

(** *** [group_results_by_document] *)

(** [grouped[document_id].append(result)] on a dictionary that iterates in
    insertion order. *)
Fixpoint append_to_group (doc : string) (r : result)
  (grouped : list (string * list result)) : list (string * list result) :=
  match grouped with
  | [] => [(doc, [r])]
  | (k, rs) :: g =>
      if String.eqb k doc then (k, rs ++ [r]) :: g
      else (k, rs) :: append_to_group doc r g
  end.

(** The body of the loop: results without document id are skipped. *)
Definition group_step (grouped : list (string * list result)) (r : result)
  : list (string * list result) :=
  if truthy (document_id r)
  then append_to_group (document_id r) r grouped
  else grouped.

Definition group_results_by_document (results : list result)
  : list (string * list result) :=
  foldl group_step [] results.

(** [grouped.get(doc)] *)
Fixpoint assoc (doc : string) (grouped : list (string * list result))
  : option (list result) :=
  match grouped with
  | [] => None
  | (k, rs) :: g => if String.eqb k doc then Some rs else assoc doc g
  end.

Definition same_doc (doc : string) (r : result) : bool :=
  String.eqb (document_id r) doc.

(** *** [build_context_for_llm] *)

(** [x.get("page_number") or 9999] *)
Definition page_or_9999 (r : result) : Z :=
  match page_number r with
  | Some p => if (p =? 0)%Z then 9999 else p
  | None => 9999
  end.

Definition sort_key (r : result) : Z * string :=
  (page_or_9999 r, chunk_id r).

(** [<] on the tuples [(int, str)] *)
Definition key_lt (k1 k2 : Z * string) : bool :=
  (k1.1 <? k2.1)%Z || ((k1.1 =? k2.1)%Z && String.ltb k1.2 k2.2).

(** [doc_results.sort(key=lambda x: (x.get("page_number") or 9999,
                                     x.get("chunk_id", "")))] *)
Definition result_before (y x : result) : bool :=
  key_lt (sort_key y) (sort_key x).

Definition sort_doc_results (doc_results : list result) : list result :=
  PySort.sort result_before doc_results.

(** [f" (Page {page})" if page else ""] *)
Definition page_info (r : result) : string :=
  match page_number r with
  | Some p =>
      if (p =? 0)%Z then EmptyString
      else " (Page " +:+ str_of_Z p +:+ ")"
  | None => EmptyString
  end.

(** What one result appends to [context_parts]. *)
Definition render_result (r : result) : list string :=
  if String.eqb (chunk_type r) "text" then
    ["Text" +:+ page_info r +:+ ":" +:+ nl +:+ content r +:+ nl]
  else if String.eqb (chunk_type r) "image" then
    if truthy (content r)
    then ["Image" +:+ page_info r +:+ " text:" +:+ nl +:+ content r +:+ nl]
    else ["Image" +:+ page_info r +:+ ": [Image at "
            +:+ default EmptyString (image_path r) +:+ "]" +:+ nl]
  else if String.eqb (chunk_type r) "code" then
    ["Code (" +:+ default "unknown" (language r) +:+ "):" +:+ nl
       +:+ content r +:+ nl]
  else [].

(** The body of the loop over the groups. A group is never empty, so
    [doc_results[0]] exists; the name is read before the group is sorted. *)
Definition render_document (doc_results : list result) : list string :=
  let name :=
    match doc_results with
    | r :: _ => document_name r
    | [] => "Unknown Document"
    end in
  ["Document: " +:+ name +:+ nl]
    ++ concat (map render_result (sort_doc_results doc_results))
    ++ [nl].

Definition context_parts (results : list result) (query : string)
  : list string :=
  ["Query: " +:+ query +:+ nlnl]
    ++ concat (map (fun g => render_document g.2)
                 (group_results_by_document results)).

Definition build_context_for_llm (results : list result) (query : string)
  : string :=
  match results with
  | [] => "No relevant information found."
  | _ => join nl (context_parts results query)
  end.

End Retriever.

(** ** Citation model: app/api/models.py *)

Module Models.

Record Citation : Type := {
  document_id : string;
  document_name : string;
  text : option string;
  image_url : option string;
  page_number : option Z;
  confidence : Q
}.

End Models.

(** ** Citation extractor: app/core/llm.py *)

Module Llm.
Import PyStr Py.

(** The longest prefix of digits: what a greedy [\d*] consumes. *)
Fixpoint digit_run (s : string) : string :=
  match s with
  | EmptyString => EmptyString
  | String c r => if is_digit c then String c (digit_run r) else EmptyString
  end.

(** [s[n:]] *)
Fixpoint drop_chars (n : nat) (s : string) : string :=
  match n, s with
  | S k, String _ r => drop_chars k r
  | _, _ => s
  end.

(** The pattern [\[DOC_(\d+)\]] matched at the start of [s]: the captured
    group and the length of the match. After the greedy run of digits the
    next character must be the closing bracket; a shorter run is followed
    by a digit, so giving digits back cannot help. *)
Definition match_doc (s : string) : option (string * nat) :=
  if String.prefix "[DOC_" s then
    let digits := digit_run (drop_chars 5 s) in
    if truthy digits
       && String.prefix "]" (drop_chars (5 + String.length digits) s)
    then Some (digits, 5 + String.length digits + 1)%nat
    else None
  else None.

(** The scan of [re.findall]: matches do not overlap; [skip] counts the
    characters of the last match still to pass. *)
Fixpoint findall_doc (skip : nat) (s : string) : list string :=
  match s with
  | EmptyString => []
  | String _ r =>
      match skip with
      | S k => findall_doc k r
      | O =>
          match match_doc s with
          | Some (digits, n) => digits :: findall_doc (n - 1) r
          | None => findall_doc 0 r
          end
      end
  end.

Definition digit_value (c : ascii) : Z := Z.of_N (code c) - 48.

Fixpoint int_of_digits (acc : Z) (s : string) : Z :=
  match s with
  | EmptyString => acc
  | String c r => int_of_digits (10 * acc + digit_value c) r
  end.

Fixpoint all_digits (s : string) : bool :=
  match s with
  | EmptyString => true
  | String c r => is_digit c && all_digits r
  end.

(** [int(s)] on a captured group: a non-empty string of digits gives its
    value, and a string that is not a number raises [ValueError]. *)
Definition py_int (s : string) : outcome Z :=
  if truthy s && all_digits s then Returns (int_of_digits 0 s)
  else Raises ValueError.

(** The two [Citation(...)] calls of [extract_citations]. *)
Definition make_citation (item : Retriever.result) : Models.Citation :=
  {| Models.document_id := Retriever.document_id item;
     Models.document_name := Retriever.document_name item;
     Models.text := Some (Retriever.content item);
     Models.image_url :=
       if String.eqb (Retriever.chunk_type item) "image"
       then Retriever.image_path item else None;
     Models.page_number := Retriever.page_number item;
     Models.confidence := Retriever.confidence item |}.

(** [c.document_id == citation.document_id and c.text == citation.text] *)
Definition same_evidence (citation c : Models.Citation) : bool :=
  String.eqb (Models.document_id c) (Models.document_id citation)
  && bool_decide (Models.text c = Models.text citation).

(** The body of the [try] block for one captured index. *)
Definition cite_body (context : list Retriever.result)
  (citations : list Models.Citation) (doc_index : string)
  : outcome (list Models.Citation) :=
  match py_int doc_index with
  | Raises e => Raises e
  | Returns n =>
      let doc_idx := (n - 1)%Z in
      if (0 <=? doc_idx)%Z && (doc_idx <? Z.of_nat (length context))%Z then
        match context !! Z.to_nat doc_idx with
        | None => Raises IndexError
        | Some item =>
            let citation := make_citation item in
            if existsb (same_evidence citation) citations
            then Returns citations
            else Returns (citations ++ [citation])
        end
      else Returns citations
  end.

(** One iteration: [except (ValueError, IndexError): continue]; any other
    exception leaves the loop. *)
Definition cite_step (context : list Retriever.result)
  (acc : outcome (list Models.Citation)) (doc_index : string)
  : outcome (list Models.Citation) :=
  match acc with
  | Raises e => Raises e
  | Returns citations =>
      match cite_body context citations doc_index with
      | Returns citations' => Returns citations'
      | Raises ValueError | Raises IndexError => Returns citations
      | Raises e => Raises e
      end
  end.

(** The loop over [citation_matches]. *)
Definition cite_all (context : list Retriever.result)
  (citation_matches : list string) : outcome (list Models.Citation) :=
  foldl (cite_step context) (Returns []) citation_matches.

(** [extract_citations]; the dictionary [doc_map] it builds first is never
    read. *)
Definition extract_citations (response : string)
  (context : list Retriever.result)
  : outcome (string * list Models.Citation) :=
  let citation_matches := findall_doc 0 response in
  match cite_all context citation_matches with
  | Raises e => Raises e
  | Returns citations =>
      match citations, context with
      | [], top_item :: _ => Returns (response, [make_citation top_item])
      | _, _ => Returns (response, citations)
      end
  end.

(** The item that a captured index names, if the index passes the bounds
    check. *)
Definition resolve (context : list Retriever.result) (doc_index : string)
  : option Retriever.result :=
  match py_int doc_index with
  | Returns n =>
      if (1 <=? n)%Z && (n <=? Z.of_nat (length context))%Z
      then context !! Z.to_nat (n - 1)
      else None
  | Raises _ => None
  end.

Definition resolvable (context : list Retriever.result)
  (doc_index : string) : bool :=
  match resolve context doc_index with Some _ => true | None => false end.

(** [if not any(...): citations.append(citation)] *)
Definition add_citation (citations : list Models.Citation)
  (citation : Models.Citation) : list Models.Citation :=
  if existsb (same_evidence citation) citations then citations
  else citations ++ [citation].

End Llm.

(** ** Definitions that follow the wording of the specification

    They are compared below with the definitions taken from the code. *)

Module Spec.
Import PyStr.

(** "count case-folded substring occurrences of each keyword within the
    chunk's content" *)
Definition match_count (keywords : list string) (content_lower : string)
  : nat :=
  foldr (fun keyword n => (occurrences keyword content_lower + n)%nat)
    0%nat keywords.

(** "whitespace-delimited tokens of length >= 4 characters, case-folded" *)
Definition keywords_of (query : string) : list string :=
  map lower
    (List.filter (fun w => (4 <=? String.length w)%nat) (split_ws query)).

(** "(page_number or +infinity, chunk_id)": [None] is +infinity. *)
Definition sort_key (r : Retriever.result) : option Z * string :=
  (match Retriever.page_number r with
   | Some p => if (p =? 0)%Z then None else Some p
   | None => None
   end,
   Retriever.chunk_id r).

Definition page_le (p q : option Z) : Prop :=
  match p, q with
  | _, None => True
  | None, Some _ => False
  | Some a, Some b => (a <= b)%Z
  end.

(** The same dictionary with another value under ["page_number"]. *)
Definition with_page (page : option Z) (r : Retriever.result)
  : Retriever.result :=
  {| Retriever.chunk_id := Retriever.chunk_id r;
     Retriever.document_id := Retriever.document_id r;
     Retriever.document_name := Retriever.document_name r;
     Retriever.chunk_type := Retriever.chunk_type r;
     Retriever.content := Retriever.content r;
     Retriever.page_number := page;
     Retriever.confidence := Retriever.confidence r;
     Retriever.image_path := Retriever.image_path r;
     Retriever.language := Retriever.language r |}.

(** Page number 0 replaced by no page number. *)
Definition page_zero_as_none (r : Retriever.result) : Retriever.result :=
  match Retriever.page_number r with
  | Some p => if (p =? 0)%Z then with_page None r else r
  | None => r
  end.

(** A function applied to every result of every group. *)
Definition map_groups (f : Retriever.result -> Retriever.result)
  (g : list (string * list Retriever.result))
  : list (string * list Retriever.result) :=
  map (fun e => (e.1, map f e.2)) g.

(** Maximal runs of word characters, in order of appearance. *)
Fixpoint word_runs_aux (cur : string) (s : string) : list string :=
  match s with
  | EmptyString => if truthy cur then [cur] else []
  | String c r =>
      if is_word c then word_runs_aux (cur +:+ String c EmptyString) r
      else if truthy cur then cur :: word_runs_aux EmptyString r
      else word_runs_aux EmptyString r
  end.

Definition word_runs (s : string) : list string :=
  word_runs_aux EmptyString s.

Definition long_enough (w : string) : bool := (4 <=? String.length w)%nat.

Definition emit (w : string) : list string :=
  if long_enough w then [w] else [].

(** The first occurrence of every (document id, text) pair, in order. *)
Fixpoint first_occurrences (seen : list Models.Citation)
  (l : list Models.Citation) : list Models.Citation :=
  match l with
  | [] => []
  | c :: l' =>
      if existsb (Llm.same_evidence c) seen then first_occurrences seen l'
      else c :: first_occurrences (seen ++ [c]) l'
  end.

End Spec.

(** ** Concrete inputs used below *)

Module Examples.
Import PyStr Py.

(** Two paragraphs of 500 characters each. *)
Definition two_paragraphs : string :=
  replicate_char 500 "a" +:+ nlnl +:+ replicate_char 500 "b".

(** A deployment without CLIP whose text model fails on every call. *)
Definition failing_models : Embedder.models :=
  {| Embedder.has_clip := false;
     Embedder.encode := fun _ => Raises RuntimeError;
     Embedder.get_sentence_embedding_dimension := 384;
     Embedder.path_exists := fun _ => true;
     Embedder.clip_image_features := fun _ => Raises RuntimeError;
     Embedder.image_to_string := fun _ => Returns "scanned text" |}.

Definition text_chunk : Embedder.chunk :=
  {| Embedder.chunk_type := "text"; Embedder.content := "hello";
     Embedder.image_path := EmptyString; Embedder.language := "unknown" |}.

Definition code_chunk : Embedder.chunk :=
  {| Embedder.chunk_type := "code"; Embedder.content := "x = 1";
     Embedder.image_path := EmptyString; Embedder.language := "python" |}.

Definition image_chunk : Embedder.chunk :=
  {| Embedder.chunk_type := "image"; Embedder.content := EmptyString;
     Embedder.image_path := "page1_img1.png";
     Embedder.language := "unknown" |}.

Import Retriever.

Definition text_result (id body : string) (page : option Z) (c : Q)
  : result :=
  {| chunk_id := id; document_id := "doc1"; document_name := "manual.pdf";
     chunk_type := "text"; content := body; page_number := page;
     confidence := c; image_path := None; language := None |}.

Definition image_result (id path : string) (page : option Z) (c : Q)
  : result :=
  {| chunk_id := id; document_id := "doc1"; document_name := "manual.pdf";
     chunk_type := "image"; content := EmptyString; page_number := page;
     confidence := c; image_path := Some path; language := None |}.

Definition item_a : result :=
  text_result "doc1_text_0" "Python is a programming language." (Some 1%Z) 0.8.
Definition item_b : result :=
  text_result "doc1_text_1" "JavaScript is used for the web." (Some 1%Z) 0.7.
Definition item_c : result :=
  text_result "doc1_text_2" "Vector databases store vectors." (Some 2%Z) 0.6.
Definition image_1 : result :=
  image_result "doc1_image_0" "page1_img1.png" (Some 1%Z) 0.9.
Definition image_2 : result :=
  image_result "doc1_image_1" "page2_img1.png" (Some 2%Z) 0.5.

Definition context3 : list result := [item_a; item_b; item_c].
Definition context5 : list result :=
  [image_1; item_a; image_2; item_b; item_c].

(** A chunk that repeats the query word. *)
Definition repeated_python : result :=
  text_result "doc1_text_0" "Python tips: python lists, python dicts."
    (Some 1%Z) 0.5.

(** Two hits at vector distance 0. *)
Definition exact_hit : result :=
  text_result "doc1_text_0" "Python is great." (Some 1%Z)
    (confidence_of_distance 0).
Definition exact_miss : result :=
  text_result "doc1_text_1" "JavaScript is also nice." (Some 1%Z)
    (confidence_of_distance 0).

(** An image without page number and a text chunk of page 10000. *)
Definition no_page : result :=
  image_result "doc1_image_0" "figure.png" None 0.9.
Definition page_10000 : result :=
  text_result "doc1_text_19998" "Appendix" (Some 10000%Z) 0.8.

Definition page_3 : result :=
  text_result "doc1_text_4" "Third page" (Some 3%Z) 0.9.
Definition page_1 : result :=
  text_result "doc1_text_0" "First page" (Some 1%Z) 0.4.
Definition page_0 : result :=
  text_result "doc1_text_9" "Cover" (Some 0%Z) 0.6.

Definition heap1 (r : result) : heap := {[ 0%nat := r ]}.
Definition heap2 (r0 r1 : result) : heap := <[ 1%nat := r1 ]> {[ 0%nat := r0 ]}.

End Examples.

(** ** Predicates on strings used in the statements below *)

Module StrPred.
Import PyStr.

(** Some character of [s] is not whitespace. *)
Fixpoint has_nonspace (s : string) : bool :=
  match s with
  | EmptyString => false
  | String c r => negb (is_space c) || has_nonspace r
  end.

(** [s] is empty or does not start with whitespace. *)
Definition starts_clean (s : string) : bool :=
  match s with
  | EmptyString => true
  | String c _ => negb (is_space c)
  end.

(** A stripped string: no whitespace at either end. *)
Definition stripped (s : string) : Prop :=
  starts_clean s = true /\ rstrip s = s.

(** What follows the first paragraph in [nlnl.join(p :: ps)]. *)
Fixpoint joined_tail (ps : list string) : string :=
  match ps with
  | [] => EmptyString
  | p :: ps' => nlnl +:+ p +:+ joined_tail ps'
  end.

End StrPred.

(** ** Vector search results: app/db/vector_store.py, [search_vectors] *)

Module VectorStore.
Import PyStr Retriever.

(** The metadata that [process_document] stores with a chunk and the index
    returns with a hit. [document_id] is written for every chunk; a key
    that may be missing is [None]. *)
Record metadata : Type := {
  m_document_id : string;
  m_chunk_type : option string;
  m_content : option string;
  m_page_number : option Z;
  m_image_path : option string;
  m_language : option string
}.

(** The [where] clauses that [search_vectors] builds:
    [{"document_id": {"$in": ids}}], [{"chunk_type": {"$ne": "image"}}] and
    [{"$and": [f, g]}]. *)
Inductive where_clause : Type :=
| InDocuments (ids : list string)
| NotImage
| And (f g : where_clause).

(** Lines 168-181: an empty list of document ids is as good as none. *)
Definition query_filter (document_ids : option (list string))
  (include_images : bool) : option where_clause :=
  let query_filter :=
    match document_ids with
    | Some (id :: ids) => Some (InDocuments (id :: ids))
    | _ => None
    end in
  if negb include_images then
    match query_filter with
    | Some f => Some (And f NotImage)
    | None => Some NotImage
    end
  else query_filter.

(** The meaning of a clause for the index: [$in] is membership, [$ne] is
    difference, [$and] is conjunction. *)
Fixpoint satisfies (m : metadata) (w : where_clause) : Prop :=
  match w with
  | InDocuments ids => m_document_id m ∈ ids
  | NotImage => m_chunk_type m <> Some "image"
  | And f g => satisfies m f /\ satisfies m g
  end.

Definition passes (m : metadata) (w : option where_clause) : Prop :=
  match w with
  | Some f => satisfies m f
  | None => True
  end.

(** One entry of [processed_results]. *)
Record search_hit : Type := {
  hit_id : string;
  hit_metadata : metadata;
  hit_confidence : Q
}.

(** Lines 191-204 on the rows (id, metadata, distance) that the index
    returns. *)
Definition processed_results (rows : list (string * metadata * Q))
  : list search_hit :=
  map (fun row =>
         {| hit_id := row.1.1;
            hit_metadata := row.1.2;
            hit_confidence := confidence_of_distance row.2 |})
    rows.

End VectorStore.

(** ** [retrieve_context]: app/core/retriever.py, lines 10-78 *)

Module Pipeline.
Import PyStr Retriever VectorStore.

(** [get_document_metadata]: the stored file name of a document, if the
    document is known and its record has one. *)
Definition document_names : Type := string -> option (option string).

(** Lines 42-72: the dictionary built for one hit. For an image hit whose
    stored metadata has no image path the code stores the value [None]
    under ["image_path"]; the record does not tell this from a missing
    key. *)
Definition enhance (names : document_names) (hit : search_hit) : result :=
  let m := hit_metadata hit in
  let chunk_type := default "text" (m_chunk_type m) in
  {| chunk_id := hit_id hit;
     document_id := m_document_id m;
     document_name :=
       match names (m_document_id m) with
       | Some (Some filename) => filename
       | _ => "Unknown Document"
       end;
     chunk_type := chunk_type;
     content := default EmptyString (m_content m);
     page_number := m_page_number m;
     confidence := hit_confidence hit;
     image_path :=
       if String.eqb chunk_type "image" then m_image_path m else None;
     language :=
       if String.eqb chunk_type "code"
       then Some (default "unknown" (m_language m)) else None |}.

(** [retrieve_context] after the call of [search_vectors], whose result is
    [search_results]: the new dictionaries get the addresses 0, 1, ... *)
Definition retrieve_context (names : document_names) (query : string)
  (search_results : list search_hit) : heap * list nat :=
  let enhanced_results := map (enhance names) search_results in
  let h : heap := map_seq 0 enhanced_results in
  let refs := seq 0 (length enhanced_results) in
  match enhanced_results with
  | _ :: _ => if truthy query then hybrid_search query h refs else (h, refs)
  | [] => (h, refs)
  end.

End Pipeline.

(** ** The key by which citations are deduplicated *)

Module Evidence.

(** [(c.document_id, c.text)] *)
Definition evidence_key (c : Models.Citation) : string * option string :=
  (Models.document_id c, Models.text c).

End Evidence.

(** ** Answer generation: app/core/llm.py, lines 18-176, and the query
       route of app/api/routes.py *)

Module Generation.
Import PyStr Py.

(** What one call of [client.chat.completions.create] followed by
    [response.choices[0].message.content] gives: the text of the answer,
    or an exception with its message. *)
Inductive api_result : Type :=
| Answer (content : string)
| Failure (message : string).

(** The client: the result of its n-th call. *)
Definition client : Type := nat -> api_result.

(** The effects of the module: calls made, seconds slept, lines printed. *)
Record world : Type := {
  calls : nat;
  slept : nat;
  printed : list string
}.

Definition called (w : world) : world :=
  {| calls := S (calls w); slept := slept w; printed := printed w |}.
Definition sleep1 (w : world) : world :=
  {| calls := calls w; slept := S (slept w); printed := printed w |}.
Definition print (line : string) (w : world) : world :=
  {| calls := calls w; slept := slept w; printed := printed w ++ [line] |}.

Definition apology (message : string) : string :=
  "I encountered an error while generating a response: " +:+ message.

(** The loop [for attempt in range(max_retries)] of
    [generate_text_response] with [remaining] iterations to go; [None] is
    the value of a function whose loop ends without [return]. *)
Fixpoint attempts (c : client) (max_retries remaining : nat) (w : world)
  : option string * world :=
  match remaining with
  | O => (None, w)
  | S k =>
      let attempt := (max_retries - remaining)%nat in
      match c (calls w) with
      | Answer content => (Some content, called w)
      | Failure e =>
          let w' :=
            print ("Error generating text response (attempt "
                     +:+ str_of_Z (Z.of_nat (attempt + 1)) +:+ "/"
                     +:+ str_of_Z (Z.of_nat max_retries) +:+ "): " +:+ e)
              (called w) in
          if (attempt =? max_retries - 1)%nat then (Some (apology e), w')
          else attempts c max_retries k (sleep1 w')
      end
  end.

Definition generate_text_response (c : client) (w : world)
  : option string * world :=
  attempts c 3 3 w.

(** Reading an image file: [os.path.exists], then [open] and [read], which
    may raise with a message. *)
Record files : Type := {
  file_exists : string -> bool;
  read_file : string -> string + string
}.

(** The loop of [generate_multimodal_response] over the context: what it
    prints. The images it attaches go into the request and are not
    modelled. *)
Fixpoint attach_images (fs : files) (context : list Retriever.result)
  (w : world) : world :=
  match context with
  | [] => w
  | item :: rest =>
      let w' :=
        match Retriever.image_path item with
        | Some path =>
            if String.eqb (Retriever.chunk_type item) "image"
               && truthy path && file_exists fs path
            then match read_file fs path with
                 | inr _ => w
                 | inl e =>
                     print ("Error processing image " +:+ path +:+ ": "
                              +:+ e) w
                 end
            else w
        | None => w
        end in
      attach_images fs rest w'
  end.

Definition generate_multimodal_response (c : client) (fs : files)
  (context : list Retriever.result) (w : world) : option string * world :=
  let w := attach_images fs context w in
  match c (calls w) with
  | Answer content => (Some content, called w)
  | Failure e =>
      (Some (apology e),
       print ("Error generating multimodal response: " +:+ e) (called w))
  end.

(** [any(item.get("chunk_type") == "image" and item.get("image_path") ...)] *)
Definition has_images (context : list Retriever.result) : bool :=
  existsb
    (fun item =>
       String.eqb (Retriever.chunk_type item) "image"
       && match Retriever.image_path item with
          | Some path => truthy path
          | None => false
          end)
    context.

(** [generate_response]; [re.findall] on [None] raises. *)
Definition generate_response (LLM_MODEL : string) (c : client) (fs : files)
  (query : string) (context : list Retriever.result) (w : world)
  : outcome (string * list Models.Citation) * world :=
  let context_str := Retriever.build_context_for_llm context query in
  let '(response, w') :=
    if has_images context && String.prefix "gpt-4-vision" LLM_MODEL
    then generate_multimodal_response c fs context w
    else generate_text_response c w in
  match response with
  | Some text => (Llm.extract_citations text context, w')
  | None => (Raises RuntimeError, w')
  end.

(** The route [/query] after [retrieve_context] has returned [context]:
    the answer and the citations of the response. *)
Definition query_route (LLM_MODEL : string) (c : client) (fs : files)
  (query : string) (context : list Retriever.result) (w : world)
  : outcome (string * list Models.Citation) * world :=
  match context with
  | [] => (Returns ("No relevant information found for your query.", []), w)
  | _ => generate_response LLM_MODEL c fs query context w
  end.

End Generation.

(** ** Further concrete inputs *)

Module Examples2.
Import Generation.

Definition fresh_world : world :=
  {| calls := 0; slept := 0; printed := [] |}.

(** A client whose first two calls fail. *)
Definition flaky_client : client :=
  fun n =>
    if (n <? 2)%nat then Failure "timeout"
    else Answer "Python is great [DOC_1].".

Definition failing_client : client := fun _ => Failure "timeout".

Definition no_files : files :=
  {| file_exists := fun _ => false; read_file := fun _ => inl "missing" |}.

(** The stored metadata of a text chunk. *)
Definition text_metadata : VectorStore.metadata :=
  {| VectorStore.m_document_id := "doc1";
     VectorStore.m_chunk_type := Some "text";
     VectorStore.m_content := Some "Python is great.";
     VectorStore.m_page_number := Some 1%Z;
     VectorStore.m_image_path := None;
     VectorStore.m_language := None |}.

(** Two rows of the index, by ascending distance. *)
Definition two_rows : list (string * VectorStore.metadata * Q) :=
  [("doc1_text_0", text_metadata, 0.4%Q);
   ("doc1_text_1",
    {| VectorStore.m_document_id := "doc1";
       VectorStore.m_chunk_type := Some "text";
       VectorStore.m_content := Some "JavaScript is also nice.";
       VectorStore.m_page_number := Some 1%Z;
       VectorStore.m_image_path := None;
       VectorStore.m_language := None |}, 1.2%Q)].

End Examples2.

(** ** Chunk records: app/core/document_processor.py, lines 89-144 *)

Module DocumentProcessor.
Import PyStr VectorStore.








End DocumentProcessor.

Module Examples3.


End Examples3.
(** ** Retrieval metrics: app/utils/evaluation.py, lines 41-52 *)

Module Evaluation.
Import Retriever.

(** [len(set(retrieved_doc_ids) & set(relevant_ids))] *)
Definition true_positives (retrieved_doc_ids relevant_ids : list string)
  : nat :=
  size ((list_to_set retrieved_doc_ids : gset string)
          ∩ list_to_set relevant_ids).

(** [a / b] on two [int]s *)
Definition ratio (a b : nat) : Q :=
  (inject_Z (Z.of_nat a) / inject_Z (Z.of_nat b))%Q.

Definition precision (retrieved_doc_ids relevant_ids : list string) : Q :=
  match retrieved_doc_ids with
  | [] => 0
  | _ => ratio (true_positives retrieved_doc_ids relevant_ids)
           (length retrieved_doc_ids)
  end.

Definition recall (retrieved_doc_ids relevant_ids : list string) : Q :=
  match relevant_ids with
  | [] => 0
  | _ => ratio (true_positives retrieved_doc_ids relevant_ids)
           (length relevant_ids)
  end.

(** [2 * precision * recall / (precision + recall)
     if (precision + recall) > 0 else 0] *)
Definition f1_score (p r : Q) : Q :=
  (if Qlt_bool 0 (p + r) then 2 * p * r / (p + r) else 0)%Q.

End Evaluation.

(** ** Code detection: app/core/code_processor.py, [looks_like_code] *)

Module CodeProcessor.
Import PyStr Retriever.

Definition code_indicators : list string :=
  ["="; "=="; "==="; "!="; "<"; ">"; "<="; ">=";
   "if"; "else"; "for"; "while"; "def"; "function"; "class";
   "{"; "}"; "("; ")"; "["; "]";
   ";"; "import"; "from"; "return"; "const"; "var"; "let"].

Definition tab : string := String (ascii_of_N 9) EmptyString.

(** [sum(1 for indicator in code_indicators if indicator in text)] *)
Definition indicator_count (text : string) : nat :=
  length (List.filter (fun indicator => contains indicator text)
            code_indicators).

Definition looks_like_code (text : string) : bool :=
  let lines := split_sep nl text in
  let indented_lines :=
    length (List.filter
              (fun line => String.prefix "  " line || String.prefix tab line)
              lines) in
  (3 <=? indicator_count text)%nat
  || ((3 <? length lines)%nat
      && Qlt_bool 0.5 (Evaluation.ratio indented_lines (length lines))).

End CodeProcessor.

(** * Properties *)

(** ** Segmenter *)

Module SegmenterFacts.
Import PyStr Segmenter Examples.

(** C3. On two paragraphs of 500 characters [chunk_text] returns one chunk
    of 1002 characters that holds both paragraphs: the test of line 111
    adds the two lengths (1000, not above the maximum) and leaves out the
    separator that line 121 inserts. *)
Theorem chunk_text_two_paragraphs_oversized :
  paragraphs_of two_paragraphs
    = [replicate_char 500 "a"; replicate_char 500 "b"]
  /\ chunk_text two_paragraphs = [two_paragraphs]
  /\ String.length two_paragraphs = 1002%nat
  /\ (TEXT_CHUNK_SIZE < String.length two_paragraphs)%nat.
Proof.
  assert (E : String.length two_paragraphs = 1002%nat) by (vm_compute; reflexivity).
  split; [|split; [|split]].
  - vm_compute; reflexivity.
  - vm_compute; reflexivity.
  - exact E.
  - rewrite E. unfold TEXT_CHUNK_SIZE. lia.
Qed.

End SegmenterFacts.

(** ** Embedding dispatcher *)

Module EmbedderFacts.
Import PyStr Py Embedder Examples.

Lemma bind_returns {A B} (m : run A) (f : A -> run B) :
  returns m.2 = true -> (forall a, returns (f a).2 = true) ->
  returns (bind m f).2 = true.
Proof.
  destruct m as [out [a|e]]; simpl; [|discriminate].
  intros _ H. specialize (H a). destruct (f a); assumption.
Qed.

Lemma try_except_returns {A} (m : run A) (handler : exn -> run A) :
  (forall e, returns (handler e).2 = true) ->
  returns (try_except m handler).2 = true.
Proof.
  intros H. destruct m as [out [a|e]]; simpl; [reflexivity|].
  specialize (H e). destruct (handler e); assumption.
Qed.

(** The image path of the dispatcher does catch: whatever the models do,
    [embed_image] returns a vector. *)
Lemma embed_image_returns (M : models) (path : string) :
  returns (embed_image M path).2 = true.
Proof.
  unfold embed_image. destruct (negb (path_exists M path)); [reflexivity|].
  apply try_except_returns. intros e. reflexivity.
Qed.

(** C7. When the text model raises, [embed_chunk] raises to its caller for
    a text chunk and for a code chunk: [embed_text] and [embed_code] have
    no handler. The same failure under an image chunk is caught, logged
    and replaced by a zero vector. *)
Theorem embed_chunk_text_failure_propagates :
  embed_chunk failing_models text_chunk = ([], Raises RuntimeError)
  /\ embed_chunk failing_models code_chunk = ([], Raises RuntimeError)
  /\ embed_chunk failing_models image_chunk
     = (["Error embedding image"], Returns (zeros 384)).
Proof. split; [|split]; vm_compute; reflexivity. Qed.

End EmbedderFacts.

(** ** Citation extractor *)

Module LlmFacts.
Import PyStr Py Llm Examples.

Lemma resolve_in_range (context : list Retriever.result) n :
  ((0 <=? n - 1) && (n - 1 <? Z.of_nat (length context)))%Z
  = ((1 <=? n) && (n <=? Z.of_nat (length context)))%Z.
Proof.
  destruct (Z.leb_spec 0 (n - 1)), (Z.ltb_spec (n - 1) (Z.of_nat (length context))),
    (Z.leb_spec 1 n), (Z.leb_spec n (Z.of_nat (length context)));
    simpl; try reflexivity; lia.
Qed.

(** One iteration of the loop never raises, and what it adds is decided by
    [resolve]. *)
Lemma cite_step_resolve context citations doc_index :
  cite_step context (Returns citations) doc_index
  = Returns (match resolve context doc_index with
             | Some item => add_citation citations (make_citation item)
             | None => citations
             end).
Proof.
  unfold cite_step, cite_body, resolve, py_int.
  destruct (truthy doc_index && all_digits doc_index); [|reflexivity].
  set (n := int_of_digits 0 doc_index).
  rewrite resolve_in_range.
  destruct ((1 <=? n)%Z && (n <=? Z.of_nat (length context))%Z); [|reflexivity].
  destruct (context !! Z.to_nat (n - 1)) as [item|]; [|reflexivity].
  unfold add_citation. destruct (existsb _ citations); reflexivity.
Qed.

Lemma cite_loop_resolve context ms : forall citations,
  foldl (cite_step context) (Returns citations) ms
  = Returns (foldl add_citation citations
               (map make_citation (omap (resolve context) ms))).
Proof.
  induction ms as [|m ms IH]; intros citations; [reflexivity|].
  cbn [foldl]. rewrite cite_step_resolve, IH.
  cbn [omap list_omap]. destruct (resolve context m) as [item|]; reflexivity.
Qed.

Lemma add_citation_first_occurrences l : forall acc,
  foldl add_citation acc l = acc ++ Spec.first_occurrences acc l.
Proof.
  induction l as [|c l IH]; intros acc; simpl.
  - symmetry; apply app_nil_r.
  - unfold add_citation at 2. destruct (existsb (same_evidence c) acc).
    + apply IH.
    + rewrite IH, <- app_assoc. reflexivity.
Qed.

(** The loop collects the first occurrence of every piece of evidence
    among the items that the captured indices name. *)
Lemma cite_all_first_occurrences context ms :
  cite_all context ms
  = Returns (Spec.first_occurrences []
               (map make_citation (omap (resolve context) ms))).
Proof.
  unfold cite_all. rewrite cite_loop_resolve, add_citation_first_occurrences.
  reflexivity.
Qed.

Lemma omap_resolve_filter context ms :
  omap (resolve context) (List.filter (resolvable context) ms)
  = omap (resolve context) ms.
Proof.
  induction ms as [|m ms IH]; [reflexivity|].
  cbn [List.filter]. unfold resolvable at 1.
  destruct (resolve context m) as [item|] eqn:E;
    cbn [omap list_omap]; rewrite ?E, IH; reflexivity.
Qed.

Lemma omap_resolve_none context ms :
  List.filter (resolvable context) ms = [] ->
  omap (resolve context) ms = [].
Proof.
  intros H. rewrite <- omap_resolve_filter, H. reflexivity.
Qed.

Lemma all_digits_digit_run s : all_digits (digit_run s) = true.
Proof.
  induction s as [|c s IH]; simpl; [reflexivity|].
  destruct (is_digit c) eqn:E; simpl; [|reflexivity].
  rewrite E, IH. reflexivity.
Qed.

Lemma match_doc_numeric s digits n :
  match_doc s = Some (digits, n) ->
  truthy digits && all_digits digits = true.
Proof.
  unfold match_doc. destruct (String.prefix "[DOC_" s); [|discriminate].
  cbv zeta. destruct (truthy (digit_run _)) eqn:T; cbn [andb]; [|discriminate].
  destruct (String.prefix "]" _); [|discriminate].
  intros [= E _]. change (digit_run (drop_chars 5 s) = digits) in E.
  rewrite <- E, T. apply all_digits_digit_run.
Qed.

(** Every index that the pattern captures is a number. *)
Lemma findall_doc_numeric s : forall skip,
  Forall (fun m => returns (py_int m) = true) (findall_doc skip s).
Proof.
  induction s as [|c s IH]; intros skip; simpl; [constructor|].
  destruct skip as [|k]; [|apply IH].
  destruct (match_doc (String c s)) as [[digits n]|] eqn:E; [|apply IH].
  constructor; [|apply IH].
  unfold py_int. rewrite (match_doc_numeric _ _ _ E). reflexivity.
Qed.

(** C4. When no marker of the answer names an item of a non-empty result
    list, exactly one citation comes back, built from the first result:
    it has the document id, the document name, the page number and the
    confidence of the first result, its content as text, and its image
    path as image url if the first result is an image, no image url
    otherwise. *)
Theorem fallback_citation_from_top_result response top rest :
  List.filter (resolvable (top :: rest)) (findall_doc 0 response) = [] ->
  exists citation,
    extract_citations response (top :: rest)
    = Returns (response, [citation])
    /\ citation = make_citation top
    /\ Models.document_id citation = Retriever.document_id top
    /\ Models.document_name citation = Retriever.document_name top
    /\ Models.text citation = Some (Retriever.content top)
    /\ Models.image_url citation
       = (if String.eqb (Retriever.chunk_type top) "image"
          then Retriever.image_path top else None)
    /\ Models.page_number citation = Retriever.page_number top
    /\ Models.confidence citation = Retriever.confidence top.
Proof.
  intros H. exists (make_citation top). split.
  - unfold extract_citations.
    rewrite cite_all_first_occurrences, (omap_resolve_none _ _ H).
    reflexivity.
  - repeat split.
Qed.

Lemma fallback_citation_from_top_result_witness :
  List.filter (resolvable context3) (findall_doc 0 "No markers, or [DOC_7].")
    = []
  /\ exists citation,
      extract_citations "No markers, or [DOC_7]." context3
      = Returns ("No markers, or [DOC_7].", [citation])
      /\ Models.document_id citation = "doc1"
      /\ Models.text citation = Some "Python is a programming language."
      /\ Models.image_url citation = None
      /\ Models.page_number citation = Some 1%Z.
Proof.
  split; [reflexivity|].
  destruct (fallback_citation_from_top_result "No markers, or [DOC_7]."
              item_a [item_b; item_c])
    as (citation & E & _ & Hd & _ & Ht & Hi & Hp & _); [reflexivity|].
  exists citation. split; [exact E|].
  split; [exact Hd|]. split; [exact Ht|]. split; [exact Hi|exact Hp].
Defined.

(** C6. [extract_citations] never raises; the markers whose index is out
    of range change nothing (the loop gives the same citations with and
    without them); every captured index is numeric, a marker such as
    [[DOC_x]] not being a match at all; and [[DOC_99]] against three items
    yields no citation in the loop. *)
Theorem unresolvable_markers_are_discarded :
  (forall response context,
      exists citations,
        extract_citations response context = Returns (response, citations))
  /\ (forall context citation_matches,
         cite_all context citation_matches
         = cite_all context
             (List.filter (resolvable context) citation_matches))
  /\ (forall response,
         Forall (fun m => returns (py_int m) = true)
           (findall_doc 0 response))
  /\ findall_doc 0 "as shown in [DOC_x] and [DOC_]" = []
  /\ (forall a b c,
         findall_doc 0 "see [DOC_99]" = ["99"]
         /\ resolvable [a; b; c] "99" = false
         /\ cite_all [a; b; c] (findall_doc 0 "see [DOC_99]") = Returns []
         /\ extract_citations "see [DOC_99]" [a; b; c]
            = Returns ("see [DOC_99]", [make_citation a])).
Proof.
  split; [|split; [|split; [|split]]].
  - intros response context. unfold extract_citations.
    rewrite cite_all_first_occurrences.
    destruct (Spec.first_occurrences _ _), context; eauto.
  - intros context ms.
    rewrite !cite_all_first_occurrences, omap_resolve_filter. reflexivity.
  - intros response. apply findall_doc_numeric.
  - reflexivity.
  - intros a b c. repeat split; reflexivity.
Qed.

(** C9, as stated, fails: the first and third of these five results are
    two images of one document without extracted text, the answer cites
    [[DOC_1]] and [[DOC_3]], and one citation comes back. *)
Lemma two_markers_one_citation :
  length context5 = 5%nat
  /\ findall_doc 0 "Compare [DOC_1] with [DOC_3]." = ["1"; "3"]
  /\ extract_citations "Compare [DOC_1] with [DOC_3]." context5
     = Returns ("Compare [DOC_1] with [DOC_3].", [make_citation image_1])
  /\ make_citation image_1 <> make_citation image_2.
Proof. repeat split; try reflexivity. discriminate. Qed.

Lemma same_evidence_differs c0 c2 :
  Retriever.document_id c0 <> Retriever.document_id c2
  \/ Retriever.content c0 <> Retriever.content c2 ->
  same_evidence (make_citation c2) (make_citation c0) = false.
Proof.
  unfold same_evidence, make_citation. simpl. intros [H|H].
  - destruct (String.eqb_spec (Retriever.document_id c0)
                (Retriever.document_id c2)); [contradiction|reflexivity].
  - rewrite bool_decide_eq_false_2 by congruence. apply andb_false_r.
Qed.

(** C9, amended. The citations are the first occurrences, by
    (document id, text), of the items named by the markers, in marker
    order; with the markers [[DOC_1]] and [[DOC_3]] against five results
    whose first and third differ in document id or in text, they are the
    first and the third result, in that order. *)
Theorem citations_first_seen_deduplicated :
  (forall context citation_matches,
      cite_all context citation_matches
      = Returns (Spec.first_occurrences []
                   (map make_citation
                      (omap (resolve context) citation_matches))))
  /\ (forall response c0 c1 c2 c3 c4,
         findall_doc 0 response = ["1"; "3"] ->
         Retriever.document_id c0 <> Retriever.document_id c2
         \/ Retriever.content c0 <> Retriever.content c2 ->
         extract_citations response [c0; c1; c2; c3; c4]
         = Returns (response, [make_citation c0; make_citation c2])).
Proof.
  split; [apply cite_all_first_occurrences|].
  intros response c0 c1 c2 c3 c4 Hm Hne. unfold extract_citations.
  rewrite cite_all_first_occurrences, Hm.
  change (omap (resolve [c0; c1; c2; c3; c4]) ["1"; "3"]) with [c0; c2].
  cbn [map Spec.first_occurrences existsb app].
  rewrite (same_evidence_differs _ _ Hne). reflexivity.
Qed.

Lemma citations_first_seen_deduplicated_witness :
  findall_doc 0 "Both [DOC_1] and [DOC_3] agree." = ["1"; "3"]
  /\ (Retriever.document_id item_a <> Retriever.document_id item_c
      \/ Retriever.content item_a <> Retriever.content item_c)
  /\ extract_citations "Both [DOC_1] and [DOC_3] agree."
       [item_a; item_b; item_c; image_1; image_2]
     = Returns ("Both [DOC_1] and [DOC_3] agree.",
                [make_citation item_a; make_citation item_c]).
Proof.
  assert (H : Retriever.document_id item_a <> Retriever.document_id item_c
              \/ Retriever.content item_a <> Retriever.content item_c)
    by (right; discriminate).
  split; [reflexivity|]. split; [exact H|].
  apply (proj2 citations_first_seen_deduplicated); [reflexivity|exact H].
Defined.

End LlmFacts.

(** ** Strings *)

Module PyStrFacts.
Import PyStr.

Local Arguments String.append !_ _ : simpl nomatch.

Lemma append_nil_r s : s +:+ EmptyString = s.
Proof. induction s as [|c s IH]; simpl; congruence. Qed.

Lemma append_snoc cur c w :
  (cur +:+ String c EmptyString) +:+ w = cur +:+ String c w.
Proof. induction cur as [|d cur IH]; simpl; congruence. Qed.

Lemma truthy_snoc cur c : truthy (cur +:+ String c EmptyString) = true.
Proof. destruct cur; reflexivity. Qed.

End PyStrFacts.

(** ** Stable sort *)

Module PySortFacts.
Import PySort.

Section Facts.
Context {A : Type} (before : A -> A -> bool).

Lemma insert_stable_perm x l : insert_stable before x l ≡ₚ x :: l.
Proof.
  induction l as [|y l IH]; simpl; [reflexivity|].
  destruct (before y x); [|reflexivity].
  rewrite IH. apply Permutation_swap.
Qed.

Lemma sort_perm l : sort before l ≡ₚ l.
Proof.
  induction l as [|x l IH]; simpl; [reflexivity|].
  rewrite insert_stable_perm, IH. reflexivity.
Qed.

Local Abbreviation not_after := (not_after before).

Hypothesis before_asym : forall x y, before x y = true -> before y x = false.
Hypothesis before_neg_trans : forall x y z,
    before y x = false -> before z y = false -> before z x = false.

Lemma insert_stable_sorted x l :
  StronglySorted not_after l ->
  StronglySorted not_after (insert_stable before x l).
Proof.
  induction 1 as [|y l Hl IH Hy]; simpl.
  - repeat constructor.
  - destruct (before y x) eqn:E.
    + constructor; [exact IH|].
      rewrite insert_stable_perm. constructor; [|exact Hy].
      apply before_asym, E.
    + constructor; [constructor; assumption|].
      constructor; [exact E|].
      eapply Forall_impl; [exact Hy|].
      intros z Hz. eapply before_neg_trans; [exact E|exact Hz].
Qed.

Lemma sort_sorted l : StronglySorted not_after (sort before l).
Proof.
  induction l as [|x l IH]; simpl; [constructor|].
  apply insert_stable_sorted, IH.
Qed.

Lemma sorted_app_left l1 a l2 :
  StronglySorted not_after (l1 ++ a :: l2) ->
  forall b, b ∈ l1 -> not_after b a.
Proof.
  induction l1 as [|x l1 IH]; simpl; intros H b Hb.
  - inversion Hb.
  - inversion H as [|? ? Hs Hf]; subst.
    apply elem_of_cons in Hb as [->|Hb]; [|eauto].
    rewrite Forall_forall in Hf. apply Hf.
    apply elem_of_app. right. apply elem_of_cons. by left.
Qed.

(** In a sorted list an element that comes strictly before another one
    stands to its left. *)
Lemma sorted_before l a b :
  StronglySorted not_after l -> a ∈ l -> b ∈ l -> before a b = true ->
  exists l1 l2 l3, l = l1 ++ a :: l2 ++ b :: l3.
Proof.
  intros Hs Ha Hb Hab.
  apply list_elem_of_split in Ha as (l1 & l2 & ->).
  apply elem_of_app in Hb as [Hb|Hb].
  - pose proof (sorted_app_left _ _ _ Hs b Hb) as H.
    unfold not_after in H. congruence.
  - apply elem_of_cons in Hb as [->|Hb].
    + pose proof (before_asym _ _ Hab). congruence.
    + apply list_elem_of_split in Hb as (l3 & l4 & ->). eauto.
Qed.

End Facts.

Lemma sort_map {A B} (f : A -> B) (before : A -> A -> bool)
  (before' : B -> B -> bool) :
  (forall x y, before' (f x) (f y) = before x y) ->
  forall l, sort before' (map f l) = map f (sort before l).
Proof.
  intros H. induction l as [|x l IH]; simpl; [reflexivity|].
  rewrite IH. generalize (sort before l) as s.
  induction s as [|y s IHs]; simpl; [reflexivity|].
  rewrite H. destruct (before y x); simpl; congruence.
Qed.

End PySortFacts.

(** ** Hybrid ranker *)

Module RankerFacts.
Import PyStr PyStrFacts Retriever Examples.

Local Open Scope Q_scope.

Lemma Qlt_bool_true a b : Qlt_bool a b = true -> a < b.
Proof.
  unfold Qlt_bool. destruct (Qle_bool b a) eqn:E; [discriminate|].
  intros _. apply Qnot_le_lt. intros H. apply Qle_bool_iff in H. congruence.
Qed.

Lemma Qlt_bool_false a b : Qlt_bool a b = false -> b <= a.
Proof.
  unfold Qlt_bool. destruct (Qle_bool b a) eqn:E; [|discriminate].
  intros _. apply Qle_bool_iff, E.
Qed.

Lemma py_min_le_l a b : py_min a b <= a.
Proof.
  unfold py_min. destruct (Qlt_bool b a) eqn:E.
  - apply Qlt_le_weak, Qlt_bool_true, E.
  - apply Qle_refl.
Qed.

Lemma py_min_le_r a b : py_min a b <= b.
Proof.
  unfold py_min. destruct (Qlt_bool b a) eqn:E.
  - apply Qle_refl.
  - apply Qlt_bool_false, E.
Qed.

Lemma py_min_glb c a b : c <= a -> c <= b -> c <= py_min a b.
Proof. unfold py_min. destruct (Qlt_bool b a); auto. Qed.

Lemma keyword_boost_nonneg m : 0 <= keyword_boost m.
Proof.
  unfold keyword_boost. apply py_min_glb; [discriminate|].
  apply Qmult_le_0_compat; [discriminate|].
  unfold Qle; simpl. lia.
Qed.

Lemma keyword_boost_le m : keyword_boost m <= 0.2.
Proof. apply py_min_le_l. Qed.

(** Rescoring a dictionary whose confidence is at most 0.99 does not lower
    it and keeps it at most 0.99. *)
Lemma rescore_bounds keywords r :
  confidence r <= 0.99 ->
  confidence r <= confidence (rescore keywords r)
  /\ confidence (rescore keywords r) <= 0.99.
Proof.
  intros H. unfold rescore.
  destruct (0 <? keyword_matches keywords (lower (content r)))%nat; simpl.
  - split; [|apply py_min_le_l].
    apply py_min_glb; [exact H|].
    rewrite <- (Qplus_0_r (confidence r)) at 1.
    apply Qplus_le_r, keyword_boost_nonneg.
  - split; [apply Qle_refl|exact H].
Qed.

Lemma score_all_bounds keywords vector_results : forall (h : heap) a r,
  h !! a = Some r -> confidence r <= 0.99 ->
  exists r', score_all keywords h vector_results !! a = Some r'
             /\ confidence r <= confidence r' /\ confidence r' <= 0.99.
Proof.
  unfold score_all.
  induction vector_results as [|x l IH]; intros h a r Ha Hr; simpl.
  - exists r. repeat split; [exact Ha|apply Qle_refl|exact Hr].
  - destruct (decide (x = a)) as [->|Hne].
    + destruct (rescore_bounds keywords r Hr) as [H1 H2].
      destruct (IH (alter (rescore keywords) a h) a (rescore keywords r))
        as (r' & E & H3 & H4); [by rewrite lookup_alter_eq, Ha|exact H2|].
      exists r'. repeat split; [exact E| |exact H4].
      eapply Qle_trans; eassumption.
    + apply IH; [|exact Hr]. by rewrite lookup_alter_ne.
Qed.

Lemma score_all_other keywords vector_results : forall (h : heap) a,
  a ∉ vector_results ->
  score_all keywords h vector_results !! a = h !! a.
Proof.
  unfold score_all.
  induction vector_results as [|x l IH]; intros h a Ha; simpl; [reflexivity|].
  apply not_elem_of_cons in Ha as [Hne Hl].
  rewrite IH by exact Hl. by rewrite lookup_alter_ne.
Qed.

(** A dictionary that the list names once is rescored once. *)
Lemma score_all_once keywords vector_results : forall (h : heap) a r,
  NoDup vector_results -> a ∈ vector_results -> h !! a = Some r ->
  score_all keywords h vector_results !! a = Some (rescore keywords r).
Proof.
  induction vector_results as [|x l IH]; intros h a r Hnd Ha Hr.
  - inversion Ha.
  - apply NoDup_cons in Hnd as [Hx Hnd].
    change (score_all keywords (alter (rescore keywords) x h) l !! a
            = Some (rescore keywords r)).
    destruct (decide (x = a)) as [->|Hne].
    + rewrite score_all_other by exact Hx.
      by rewrite lookup_alter_eq, Hr.
    + assert (a ∈ l) as Hl
        by (apply elem_of_cons in Ha as [->|Ha']; [congruence|exact Ha']).
      apply IH; [exact Hnd|exact Hl|by rewrite lookup_alter_ne].
Qed.

(** A dictionary that the list names once is rescored once, however
    often the list names the other dictionaries. *)
Lemma score_all_named_once keywords vector_results : forall (h : heap) a r,
  count_occ Nat.eq_dec vector_results a = 1%nat -> h !! a = Some r ->
  score_all keywords h vector_results !! a = Some (rescore keywords r).
Proof.
  induction vector_results as [|x l IH]; intros h a r Hc Hr; [discriminate|].
  change (score_all keywords (alter (rescore keywords) x h) l !! a
          = Some (rescore keywords r)).
  cbn [count_occ] in Hc. destruct (Nat.eq_dec x a) as [->|Hne].
  - injection Hc as Hc. apply count_occ_not_In in Hc.
    rewrite score_all_other by (rewrite list_elem_of_In; exact Hc).
    by rewrite lookup_alter_eq, Hr.
  - apply IH; [exact Hc|by rewrite lookup_alter_ne].
Qed.

Lemma hybrid_search_heap query (h : heap) vector_results :
  (hybrid_search query h vector_results).1
  = match keywords_of query with
    | [] => h
    | keywords => score_all keywords h vector_results
    end.
Proof. unfold hybrid_search. destruct (keywords_of query); reflexivity. Qed.

Lemma hybrid_search_perm query (h : heap) vector_results :
  (hybrid_search query h vector_results).2 ≡ₚ vector_results.
Proof.
  unfold hybrid_search. destruct (keywords_of query); [reflexivity|].
  apply PySortFacts.sort_perm.
Qed.

Lemma keyword_matches_nil content_lower :
  keyword_matches [] content_lower = 0%nat.
Proof. reflexivity. Qed.

(** A match count is positive exactly when some keyword occurs. *)
Lemma keyword_matches_pos keywords content_lower :
  (0 <? keyword_matches keywords content_lower)%nat
  = existsb (fun keyword => contains keyword content_lower) keywords.
Proof.
  unfold keyword_matches.
  induction keywords as [|k ks IH]; [reflexivity|].
  rewrite filter_cons. simpl existsb.
  destruct (contains k content_lower); simpl.
  - destruct (decide (true = true)); [reflexivity|congruence].
  - destruct (decide (false = true)); [discriminate|exact IH].
Qed.

Lemma confidence_of_distance_le distance :
  0.02 <= distance -> confidence_of_distance distance <= 0.99.
Proof.
  intros H. unfold confidence_of_distance.
  assert (0.01 <= py_min (distance / 2) 0.95) as Hm.
  { apply py_min_glb; [|discriminate].
    apply Qle_shift_div_l; [reflexivity|].
    eapply Qle_trans; [|exact H]. discriminate. }
  revert Hm. generalize (py_min (distance / 2) 0.95). intros m Hm. lra.
Qed.

(** *** Keywords *)

Lemma filter_long_enough_cons w l :
  List.filter Spec.long_enough (w :: l)
  = Spec.emit w ++ List.filter Spec.long_enough l.
Proof.
  unfold Spec.emit. simpl. destruct (Spec.long_enough w); reflexivity.
Qed.

(** Inside a run of word characters nothing is found, whether the run was
    taken as a match or not. *)
Lemma findall_words_skip s : forall k,
  (k <= String.length (word_run s))%nat ->
  findall_words true k s = findall_words true 0 s.
Proof.
  induction s as [|c s IH]; intros k Hk; [reflexivity|].
  destruct k as [|k]; [reflexivity|].
  simpl in Hk |- *. destruct (is_word c); simpl in Hk; [|lia].
  apply IH. lia.
Qed.

Lemma word_run_cons c s :
  word_run (String c s)
  = if is_word c then String c (word_run s) else EmptyString.
Proof. reflexivity. Qed.

Lemma findall_words_cons prev_word c s :
  findall_words prev_word 0 (String c s)
  = if xorb prev_word (is_word c)
       && Spec.long_enough (word_run (String c s))
    then word_run (String c s)
           :: findall_words (is_word c)
                (String.length (word_run (String c s)) - 1) s
    else findall_words (is_word c) 0 s.
Proof. reflexivity. Qed.

Lemma word_runs_aux_cons cur c s :
  Spec.word_runs_aux cur (String c s)
  = if is_word c
    then Spec.word_runs_aux (cur +:+ String c EmptyString) s
    else if truthy cur then cur :: Spec.word_runs_aux EmptyString s
         else Spec.word_runs_aux EmptyString s.
Proof. reflexivity. Qed.

Lemma findall_words_runs s :
  (forall cur, truthy cur = true ->
      List.filter Spec.long_enough (Spec.word_runs_aux cur s)
      = Spec.emit (cur +:+ word_run s) ++ findall_words true 0 s)
  /\ findall_words false 0 s
     = List.filter Spec.long_enough (Spec.word_runs_aux EmptyString s).
Proof.
  induction s as [|c s [IH1 IH2]]; split.
  - intros cur Hcur. simpl. rewrite Hcur, append_nil_r, filter_long_enough_cons.
    reflexivity.
  - reflexivity.
  - intros cur Hcur.
    rewrite word_runs_aux_cons, findall_words_cons, word_run_cons.
    destruct (is_word c); cbn [xorb andb].
    + rewrite IH1 by apply truthy_snoc. rewrite append_snoc. reflexivity.
    + rewrite Hcur, filter_long_enough_cons, append_nil_r, IH2. reflexivity.
  - rewrite word_runs_aux_cons, findall_words_cons, word_run_cons.
    destruct (is_word c); cbn [xorb andb]; [|exact IH2].
    change (EmptyString +:+ String c EmptyString) with (String c EmptyString).
    rewrite (IH1 (String c EmptyString)) by reflexivity.
    change (String c EmptyString +:+ word_run s) with (String c (word_run s)).
    unfold Spec.emit.
    destruct (Spec.long_enough (String c (word_run s))); [|reflexivity].
    cbn [String.length].
    replace (S (String.length (word_run s)) - 1)%nat
      with (String.length (word_run s)) by lia.
    rewrite findall_words_skip by lia. reflexivity.
Qed.

(** The scan of the pattern finds the runs of word characters of length
    four or more. *)
Lemma keywords_of_word_runs query :
  keywords_of query
  = List.filter Spec.long_enough (Spec.word_runs (lower query)).
Proof. apply findall_words_runs. Qed.

(** *** The claims on the ranker *)

(** C1, as stated, fails: the chunk holds the keyword three times, the
    code counts the keyword once and adds 0.05, not 0.15. And a dictionary
    that the list names twice is rescored twice: its confidence ends
    above the 0.55 of a single rescoring. *)
Lemma keyword_occurrences_are_not_counted :
  keywords_of "python" = ["python"]
  /\ contains "python" (lower (content repeated_python)) = true
  /\ Spec.match_count (keywords_of "python")
       (lower (content repeated_python)) = 3%nat
  /\ (exists r',
         (hybrid_search "python" (heap1 repeated_python) [0%nat]).1 !! 0%nat
           = Some r'
         /\ confidence r' == 0.55
         /\ ~ confidence r'
              == py_min 0.99
                   (confidence repeated_python
                    + py_min 0.2 (0.05 * inject_Z (Z.of_nat 3))))
  /\ (exists r',
         (hybrid_search "python" (heap1 repeated_python)
            [0%nat; 0%nat]).1 !! 0%nat = Some r'
         /\ 0.55 < confidence r').
Proof.
  split; [reflexivity|]. split; [reflexivity|]. split; [reflexivity|].
  split.
  - eexists. split; [vm_compute; reflexivity|].
    split; [reflexivity|]. vm_compute. discriminate.
  - eexists. split; [vm_compute; reflexivity|]. reflexivity.
Qed.

(** C1, amended. Every dictionary that the result list names once,
    however often the list names the others, gets the confidence
    min(0.99, old + min(0.2, 0.05 * match_count)) when match_count is
    positive, and keeps its confidence otherwise, where match_count is the
    number of query keywords (each counted once per appearance in the
    query) that occur in the lower-cased content, which is positive
    exactly when some keyword occurs; the content is untouched and the
    returned list is a rearrangement of the given one. *)
Theorem hybrid_search_rescores_each_result query (h : heap)
  vector_results a r :
  count_occ Nat.eq_dec vector_results a = 1%nat -> h !! a = Some r ->
  let keywords := keywords_of query in
  let match_count := keyword_matches keywords (lower (content r)) in
  (0 <? match_count)%nat
  = existsb (fun keyword => contains keyword (lower (content r))) keywords
  /\ (hybrid_search query h vector_results).2 ≡ₚ vector_results
  /\ exists r',
      (hybrid_search query h vector_results).1 !! a = Some r'
      /\ content r' = content r
      /\ confidence r'
         = if (0 <? match_count)%nat
           then py_min 0.99
                  (confidence r
                   + py_min 0.2 (0.05 * inject_Z (Z.of_nat match_count)))
           else confidence r.
Proof.
  intros Hc Hr keywords match_count.
  split; [apply keyword_matches_pos|].
  split; [apply hybrid_search_perm|].
  rewrite hybrid_search_heap. subst match_count keywords.
  destruct (keywords_of query) as [|k ks] eqn:E.
  - exists r. rewrite keyword_matches_nil. auto.
  - exists (rescore (k :: ks) r).
    split; [apply score_all_named_once; assumption|].
    unfold rescore.
    destruct (0 <? keyword_matches (k :: ks) (lower (content r)))%nat;
      split; reflexivity.
Qed.

Lemma hybrid_search_rescores_each_result_witness :
  count_occ Nat.eq_dec [0%nat; 1%nat; 1%nat] 0%nat = 1%nat
  /\ heap2 item_a item_b !! 0%nat = Some item_a
  /\ exists r',
      (hybrid_search "Python programming" (heap2 item_a item_b)
         [0%nat; 1%nat; 1%nat]).1 !! 0%nat = Some r'
      /\ confidence r' == 0.9.
Proof.
  assert (Hc : count_occ Nat.eq_dec [0%nat; 1%nat; 1%nat] 0%nat = 1%nat)
    by reflexivity.
  assert (Hl : heap2 item_a item_b !! 0%nat = Some item_a) by reflexivity.
  split; [exact Hc|]. split; [exact Hl|].
  destruct (hybrid_search_rescores_each_result "Python programming"
              (heap2 item_a item_b) [0%nat; 1%nat; 1%nat] 0%nat item_a Hc Hl)
    as (_ & _ & r' & E & _ & Hconf).
  exists r'. split; [exact E|]. rewrite Hconf. reflexivity.
Defined.

(** C2, as stated, fails at vector distance 0: the confidence 1 of a chunk
    that holds a keyword is lowered to 0.99, and the confidence 1 of a
    chunk without keyword stays above 0.99. *)
Lemma exact_match_confidence_is_lowered :
  confidence exact_hit == 1
  /\ exists r0 r1,
      (hybrid_search "Tell me about Python" (heap2 exact_hit exact_miss)
         [0%nat; 1%nat]).1 !! 0%nat = Some r0
      /\ (hybrid_search "Tell me about Python" (heap2 exact_hit exact_miss)
            [0%nat; 1%nat]).1 !! 1%nat = Some r1
      /\ confidence r0 < confidence exact_hit
      /\ 0.99 < confidence r1.
Proof.
  split; [reflexivity|]. do 2 eexists.
  split; [vm_compute; reflexivity|]. split; [vm_compute; reflexivity|].
  split; reflexivity.
Qed.

(** C2, amended. A confidence derived from a vector distance is at least
    0.05, and at most 0.99 when the distance is at least 0.02; every
    dictionary whose confidence is at most 0.99 has, after hybrid
    ranking, a confidence that is no lower and at most 0.99, whatever
    the query and however often the list names it. *)
Theorem hybrid_search_confidence_bounds :
  (forall distance, 0.05 <= confidence_of_distance distance)
  /\ (forall distance,
         0.02 <= distance -> confidence_of_distance distance <= 0.99)
  /\ (forall query (h : heap) vector_results a r,
         h !! a = Some r -> confidence r <= 0.99 ->
         exists r',
           (hybrid_search query h vector_results).1 !! a = Some r'
           /\ confidence r <= confidence r'
           /\ confidence r' <= 0.99).
Proof.
  split; [|split; [apply confidence_of_distance_le|]].
  - intros distance. unfold confidence_of_distance.
    pose proof (py_min_le_r (distance / 2) 0.95) as H.
    revert H. generalize (py_min (distance / 2) 0.95). intros m H. lra.
  - intros query h vector_results a r Ha Hr. rewrite hybrid_search_heap.
    destruct (keywords_of query) as [|k ks].
    + exists r. repeat split; [exact Ha|apply Qle_refl|exact Hr].
    + apply score_all_bounds; assumption.
Qed.

Lemma hybrid_search_confidence_bounds_witness :
  0.02 <= 0.4
  /\ confidence item_a <= 0.99
  /\ exists r',
      (hybrid_search "Python programming" (heap2 item_a item_b)
         [0%nat; 1%nat; 0%nat]).1 !! 0%nat = Some r'
      /\ confidence item_a <= confidence r'
      /\ confidence r' <= 0.99.
Proof.
  assert (H1 : 0.02 <= 0.4) by discriminate.
  assert (H2 : confidence item_a <= 0.99) by discriminate.
  split; [exact H1|]. split; [exact H2|].
  pose proof (proj1 (proj2 hybrid_search_confidence_bounds) 0.4 H1) as _.
  apply (proj2 (proj2 hybrid_search_confidence_bounds)); [reflexivity|exact H2].
Defined.

(** C8, as stated, fails: the token "foo-bar" has seven characters, and
    the pattern finds no keyword in it. *)
Lemma hyphenated_token_is_no_keyword :
  Spec.keywords_of "Use foo-bar" = ["foo-bar"]
  /\ keywords_of "Use foo-bar" = []
  /\ Spec.keywords_of "What is OCR?" = ["what"; "ocr?"]
  /\ keywords_of "What is OCR?" = ["what"].
Proof. repeat split; reflexivity. Qed.

(** C8, amended. The keywords are the maximal runs of word characters
    (letters, digits, underscore) of the lower-cased query that have four
    characters or more, in order of appearance; when there is none,
    [hybrid_search] returns the list it was given and changes no
    dictionary. *)
Theorem keywords_are_long_word_runs query (h : heap) vector_results :
  keywords_of query
  = List.filter Spec.long_enough (Spec.word_runs (lower query))
  /\ (keywords_of query = [] ->
      hybrid_search query h vector_results = (h, vector_results)).
Proof.
  split; [apply keywords_of_word_runs|].
  intros E. unfold hybrid_search. rewrite E. reflexivity.
Qed.

Lemma keywords_are_long_word_runs_witness :
  keywords_of "Use foo-bar" = []
  /\ hybrid_search "Use foo-bar" (heap2 item_b item_a) [0%nat; 1%nat]
     = (heap2 item_b item_a, [0%nat; 1%nat]).
Proof.
  split; [reflexivity|].
  apply (proj2 (keywords_are_long_word_runs "Use foo-bar"
                  (heap2 item_b item_a) [0%nat; 1%nat])).
  reflexivity.
Defined.

End RankerFacts.

(** ** Context assembler *)

Module AssemblerFacts.
Import PyStr Retriever Examples.

(** *** The order on sort keys *)

Lemma ascii_compare_refl a : Ascii.compare a a = Eq.
Proof. apply N.compare_refl. Qed.

Lemma ascii_compare_lt_trans a b c :
  Ascii.compare a b = Lt -> Ascii.compare b c = Lt -> Ascii.compare a c = Lt.
Proof.
  unfold Ascii.compare. rewrite !N.compare_lt_iff. apply N.lt_trans.
Qed.

Lemma string_compare_lt_trans a : forall b c,
  String.compare a b = Lt -> String.compare b c = Lt ->
  String.compare a c = Lt.
Proof.
  induction a as [|x a IH]; intros [|y b] [|z c]; simpl;
    try discriminate; try reflexivity.
  destruct (Ascii.compare x y) eqn:Exy; try discriminate;
    destruct (Ascii.compare y z) eqn:Eyz; try discriminate; intros H1 H2.
  - apply Ascii.compare_eq_iff in Exy as ->. rewrite Eyz. eauto.
  - apply Ascii.compare_eq_iff in Exy as ->. rewrite Eyz. reflexivity.
  - apply Ascii.compare_eq_iff in Eyz as <-. rewrite Exy. reflexivity.
  - rewrite (ascii_compare_lt_trans _ _ _ Exy Eyz). reflexivity.
Qed.

Lemma string_ltb_asym a b : String.ltb a b = true -> String.ltb b a = false.
Proof.
  unfold String.ltb. rewrite (String.compare_antisym a b).
  destruct (String.compare b a); simpl; congruence.
Qed.

Lemma string_ltb_neg_trans a b c :
  String.ltb b a = false -> String.ltb c b = false -> String.ltb c a = false.
Proof.
  unfold String.ltb. intros Hba Hcb.
  destruct (String.compare c a) eqn:Eca; try reflexivity. exfalso.
  destruct (String.compare a b) eqn:Eab.
  - apply String.compare_eq_iff in Eab as ->. rewrite Eca in Hcb. discriminate.
  - rewrite (string_compare_lt_trans _ _ _ Eca Eab) in Hcb. discriminate.
  - rewrite (String.compare_antisym b a), Eab in Hba. discriminate.
Qed.

Lemma key_lt_asym k1 k2 : key_lt k1 k2 = true -> key_lt k2 k1 = false.
Proof.
  unfold key_lt. destruct k1 as [p1 c1], k2 as [p2 c2]; simpl.
  destruct (Z.ltb_spec p1 p2), (Z.ltb_spec p2 p1), (Z.eqb_spec p1 p2),
    (Z.eqb_spec p2 p1); simpl; try lia; try congruence.
  apply string_ltb_asym.
Qed.

Lemma key_lt_neg_trans k1 k2 k3 :
  key_lt k2 k1 = false -> key_lt k3 k2 = false -> key_lt k3 k1 = false.
Proof.
  unfold key_lt. destruct k1 as [p1 c1], k2 as [p2 c2], k3 as [p3 c3]; simpl.
  destruct (Z.ltb_spec p2 p1), (Z.ltb_spec p3 p2), (Z.ltb_spec p3 p1),
    (Z.eqb_spec p2 p1), (Z.eqb_spec p3 p2), (Z.eqb_spec p3 p1);
    simpl; try lia; try congruence.
  apply string_ltb_neg_trans.
Qed.

Lemma sort_doc_results_perm rs : sort_doc_results rs ≡ₚ rs.
Proof. apply PySortFacts.sort_perm. Qed.

Lemma sort_doc_results_sorted rs :
  StronglySorted (PySort.not_after result_before) (sort_doc_results rs).
Proof.
  apply PySortFacts.sort_sorted.
  - intros x y. apply key_lt_asym.
  - intros x y z. apply key_lt_neg_trans.
Qed.

Lemma sort_doc_results_before rs a b :
  a ∈ rs -> b ∈ rs -> key_lt (sort_key a) (sort_key b) = true ->
  exists l1 l2 l3, sort_doc_results rs = l1 ++ a :: l2 ++ b :: l3.
Proof.
  intros Ha Hb Hab.
  apply (PySortFacts.sorted_before result_before).
  - intros x y. apply key_lt_asym.
  - apply sort_doc_results_sorted.
  - by rewrite sort_doc_results_perm.
  - by rewrite sort_doc_results_perm.
  - exact Hab.
Qed.

(** *** Grouping *)

Lemma assoc_append doc' doc r g :
  assoc doc' (append_to_group doc r g)
  = if String.eqb doc doc'
    then Some (default [] (assoc doc' g) ++ [r])
    else assoc doc' g.
Proof.
  induction g as [|[k rs] g IH]; simpl.
  - destruct (String.eqb doc doc'); reflexivity.
  - destruct (String.eqb_spec k doc) as [->|Hk]; simpl.
    + destruct (String.eqb doc doc'); reflexivity.
    + destruct (String.eqb_spec k doc') as [->|Hk'].
      * destruct (String.eqb_spec doc doc'); congruence.
      * exact IH.
Qed.

Lemma keys_append doc r g k :
  k ∈ (append_to_group doc r g).*1 -> k = doc \/ k ∈ g.*1.
Proof.
  induction g as [|[k' rs] g IH]; simpl.
  - intros H. apply list_elem_of_singleton in H. by left.
  - destruct (String.eqb k' doc); simpl; [by right|].
    rewrite !elem_of_cons. intros [->|H]; [by right; left|].
    destruct (IH H); auto.
Qed.

Lemma NoDup_keys_append doc r g :
  NoDup g.*1 -> NoDup (append_to_group doc r g).*1.
Proof.
  induction g as [|[k rs] g IH]; simpl; intros H.
  - apply NoDup_singleton.
  - apply NoDup_cons in H as [Hk Hg].
    destruct (String.eqb_spec k doc) as [->|Hne]; simpl.
    + apply NoDup_cons; auto.
    + apply NoDup_cons. split; [|auto].
      intros Hin. apply keys_append in Hin as [->|Hin]; [congruence|].
      exact (Hk Hin).
Qed.

Lemma NoDup_keys_foldl results : forall g,
  NoDup g.*1 -> NoDup (foldl group_step g results).*1.
Proof.
  induction results as [|r results IH]; intros g Hg; simpl; [exact Hg|].
  apply IH. unfold group_step.
  destruct (truthy (document_id r)); [apply NoDup_keys_append|]; exact Hg.
Qed.

Lemma assoc_foldl doc results : forall g,
  assoc doc (foldl group_step g results)
  = match List.filter (same_doc doc) results with
    | [] => assoc doc g
    | l => if truthy doc then Some (default [] (assoc doc g) ++ l)
           else assoc doc g
    end.
Proof.
  induction results as [|r results IH]; intros g; [reflexivity|].
  cbn [foldl List.filter]. rewrite IH. unfold group_step, same_doc at 2.
  destruct (String.eqb_spec (document_id r) doc) as [<-|Hne].
  - destruct (truthy (document_id r)) eqn:T.
    + rewrite assoc_append, String.eqb_refl. simpl.
      destruct (List.filter _ results); [reflexivity|].
      rewrite <- app_assoc. reflexivity.
    + destruct (List.filter _ results); reflexivity.
  - destruct (truthy (document_id r)); [|reflexivity].
    rewrite assoc_append.
    destruct (String.eqb_spec (document_id r) doc); [congruence|reflexivity].
Qed.

Lemma assoc_elem_of doc rs g :
  NoDup g.*1 -> ((doc, rs) ∈ g <-> assoc doc g = Some rs).
Proof.
  induction g as [|[k rs'] g IH]; simpl; intros H.
  - split; [intros Hin; inversion Hin|discriminate].
  - apply NoDup_cons in H as [Hk Hg]. rewrite elem_of_cons.
    destruct (String.eqb_spec k doc) as [->|Hne].
    + split.
      * intros [[= ->]|Hin]; [reflexivity|].
        exfalso. apply Hk. apply list_elem_of_fmap. by exists (doc, rs).
      * intros [= ->]. by left.
    + rewrite <- (IH Hg). split; [intros [[= -> ->]|Hin]; congruence|auto].
Qed.

(** The groups are the non-empty document ids with, each, the results of
    that document in their input order. *)
Lemma group_results_by_document_spec results doc rs :
  (doc, rs) ∈ group_results_by_document results
  <-> truthy doc = true /\ rs <> []
      /\ rs = List.filter (same_doc doc) results.
Proof.
  change (group_results_by_document results)
    with (foldl group_step [] results).
  rewrite assoc_elem_of by (apply NoDup_keys_foldl; constructor).
  rewrite assoc_foldl. simpl.
  destruct (List.filter (same_doc doc) results) as [|x l].
  - split; [discriminate|]. intros (_ & H & ->). congruence.
  - destruct (truthy doc).
    + split; [intros [= <-]; auto|]. intros (_ & _ & ->). reflexivity.
    + split; [discriminate|]. intros (? & _); discriminate.
Qed.

(** *** Page number 0 *)

Lemma page_zero_document_id r :
  document_id (Spec.page_zero_as_none r) = document_id r.
Proof.
  unfold Spec.page_zero_as_none.
  destruct (page_number r) as [p|]; [destruct (p =? 0)%Z|]; reflexivity.
Qed.

Lemma page_zero_document_name r :
  document_name (Spec.page_zero_as_none r) = document_name r.
Proof.
  unfold Spec.page_zero_as_none.
  destruct (page_number r) as [p|]; [destruct (p =? 0)%Z|]; reflexivity.
Qed.

Lemma page_zero_sort_key r :
  sort_key (Spec.page_zero_as_none r) = sort_key r.
Proof.
  unfold Spec.page_zero_as_none.
  destruct (page_number r) as [p|] eqn:E;
    [destruct (p =? 0)%Z eqn:Ep|]; try reflexivity.
  unfold sort_key, page_or_9999. simpl. rewrite E, Ep. reflexivity.
Qed.

Lemma page_zero_render_result r :
  render_result (Spec.page_zero_as_none r) = render_result r.
Proof.
  unfold Spec.page_zero_as_none.
  destruct (page_number r) as [p|] eqn:E;
    [destruct (p =? 0)%Z eqn:Ep|]; try reflexivity.
  unfold render_result, page_info. cbn [Spec.with_page chunk_type content
    page_number image_path language]. rewrite E, Ep. reflexivity.
Qed.

Lemma append_to_group_map f doc r g :
  append_to_group doc (f r) (Spec.map_groups f g)
  = Spec.map_groups f (append_to_group doc r g).
Proof.
  induction g as [|[k rs] g IH]; simpl; [reflexivity|].
  destruct (String.eqb k doc); simpl.
  - rewrite map_app. reflexivity.
  - rewrite IH. reflexivity.
Qed.

Lemma group_results_map f results :
  (forall r, document_id (f r) = document_id r) ->
  forall g,
    foldl group_step (Spec.map_groups f g) (map f results)
    = Spec.map_groups f (foldl group_step g results).
Proof.
  intros Hf. induction results as [|r results IH]; intros g; [reflexivity|].
  cbn [map foldl]. rewrite <- IH. f_equal.
  unfold group_step. rewrite Hf.
  destruct (truthy (document_id r)); [apply append_to_group_map|reflexivity].
Qed.

Lemma render_document_page_zero rs :
  render_document (map Spec.page_zero_as_none rs) = render_document rs.
Proof.
  unfold render_document, sort_doc_results.
  rewrite (PySortFacts.sort_map Spec.page_zero_as_none result_before).
  - rewrite map_map.
    rewrite (map_ext _ render_result) by (intros; apply page_zero_render_result).
    destruct rs as [|r rs]; cbn [map]; [reflexivity|].
    rewrite page_zero_document_name. reflexivity.
  - intros x y. unfold result_before. rewrite !page_zero_sort_key. reflexivity.
Qed.

Lemma build_context_page_zero results query :
  build_context_for_llm (map Spec.page_zero_as_none results) query
  = build_context_for_llm results query.
Proof.
  destruct results as [|r results]; [reflexivity|].
  unfold build_context_for_llm, context_parts, group_results_by_document.
  change (@nil (string * list result))
    with (Spec.map_groups Spec.page_zero_as_none []) at 1.
  rewrite group_results_map by apply page_zero_document_id.
  unfold Spec.map_groups. rewrite map_map. cbn [map snd].
  rewrite (map_ext _ (fun g => render_document g.2))
    by (intros; apply render_document_page_zero).
  reflexivity.
Qed.

Lemma same_doc_group results a :
  a ∈ results -> truthy (document_id a) = true ->
  (document_id a, List.filter (same_doc (document_id a)) results)
    ∈ group_results_by_document results
  /\ a ∈ List.filter (same_doc (document_id a)) results.
Proof.
  intros Ha Hd.
  assert (Hain : a ∈ List.filter (same_doc (document_id a)) results).
  { apply list_elem_of_In, filter_In. split; [by apply list_elem_of_In|].
    apply String.eqb_refl. }
  split; [|exact Hain].
  apply group_results_by_document_spec.
  split; [exact Hd|]. split; [|reflexivity].
  intros Hnil. rewrite Hnil in Hain. inversion Hain.
Qed.

(** In the assembled context, the block of a result stands to the left of
    the block of every result of the same document with a larger key. *)
Lemma context_parts_before results query a b :
  a ∈ results -> b ∈ results ->
  document_id a = document_id b -> truthy (document_id a) = true ->
  key_lt (sort_key a) (sort_key b) = true ->
  exists before mid after,
    context_parts results query
    = before ++ render_result a ++ mid ++ render_result b ++ after.
Proof.
  intros Ha Hb Hdoc Hd Hlt.
  destruct (same_doc_group results a Ha Hd) as [Hg Hain].
  set (rs := List.filter (same_doc (document_id a)) results) in *.
  assert (Hbin : b ∈ rs).
  { apply list_elem_of_In, filter_In. split; [by apply list_elem_of_In|].
    unfold same_doc. rewrite Hdoc. apply String.eqb_refl. }
  destruct (sort_doc_results_before rs a b Hain Hbin Hlt)
    as (l1 & l2 & l3 & E).
  apply list_elem_of_split in Hg as (g1 & g2 & Hg).
  unfold context_parts. rewrite Hg, map_app, concat_app.
  cbn [map concat snd]. unfold render_document at 2. rewrite E.
  rewrite map_app, concat_app. cbn [map concat].
  rewrite map_app, concat_app. cbn [map concat].
  exists (["Query: " +:+ query +:+ nlnl]
            ++ concat (map (fun g => render_document g.2) g1)
            ++ ["Document: "
                  +:+ match rs with
                      | r :: _ => document_name r
                      | [] => "Unknown Document"
                      end +:+ nl]
            ++ concat (map render_result l1)),
    (concat (map render_result l2)),
    (concat (map render_result l3) ++ [nl]
       ++ concat (map (fun g => render_document g.2) g2)).
  rewrite <- !app_assoc. reflexivity.
Qed.

Lemma build_context_nonempty results query a :
  a ∈ results ->
  build_context_for_llm results query = join nl (context_parts results query).
Proof. intros Ha. destruct results; [inversion Ha|reflexivity]. Qed.

Lemma key_lt_page_zero r r' p :
  page_number r = Some 0%Z -> page_number r' = Some p ->
  (1 <= p <= 9998)%Z ->
  key_lt (sort_key r') (sort_key r) = true.
Proof.
  intros E E' Hp. unfold key_lt, sort_key, page_or_9999.
  rewrite E, E'. cbn [fst snd Z.eqb].
  destruct (Z.eqb_spec p 0); [lia|].
  destruct (Z.ltb_spec p 9999); [reflexivity|lia].
Qed.

(** *** The claims on the assembler *)

(** C5, as stated, fails: a chunk without page number is placed before a
    chunk of page 10000 of the same document, since its key is 9999 and
    not +infinity. *)
Lemma chunk_without_page_is_not_last :
  page_number no_page = None
  /\ page_number page_10000 = Some 10000%Z
  /\ ~ Spec.page_le (Spec.sort_key no_page).1 (Spec.sort_key page_10000).1
  /\ sort_doc_results [page_10000; no_page] = [no_page; page_10000]
  /\ context_parts [page_10000; no_page] "q"
     = ["Query: q" +:+ nlnl;
        "Document: manual.pdf" +:+ nl;
        "Image: [Image at figure.png]" +:+ nl;
        "Text (Page 10000):" +:+ nl +:+ "Appendix" +:+ nl;
        nl].
Proof.
  split; [reflexivity|]. split; [reflexivity|].
  split; [intros H; exact H|]. split; reflexivity.
Qed.

(** C5, amended. The groups are the non-empty document ids, each with its
    results in input order; the blocks of a group are rendered in the
    order of [sort_doc_results], a rearrangement of the group that is
    ascending by (page_number or 9999, chunk_id); hence a chunk with a
    smaller key stands to the left of one with a larger key, a chunk of
    page 1 has a smaller key than one of page 3, and a chunk whose page
    number is below 9999 and not 0 has a smaller key than a chunk without
    page number. Two results of one document with pages 1 and 3 are
    rendered page 1 first, wherever they stand in the input: in the
    assembled context, which is the parts joined by newlines, the block
    of page 1 stands to the left of the block of page 3. *)
Theorem context_groups_sorted_by_page_or_9999 :
  (forall results doc rs,
      (doc, rs) ∈ group_results_by_document results
      <-> truthy doc = true /\ rs <> []
          /\ rs = List.filter (same_doc doc) results)
  /\ (forall rs,
         render_document rs
         = ["Document: "
              +:+ match rs with
                  | r :: _ => document_name r
                  | [] => "Unknown Document"
                  end +:+ nl]
             ++ concat (map render_result (sort_doc_results rs)) ++ [nl])
  /\ (forall rs,
         sort_doc_results rs ≡ₚ rs
         /\ StronglySorted
              (fun x y => key_lt (sort_key y) (sort_key x) = false)
              (sort_doc_results rs))
  /\ (forall rs a b,
         a ∈ rs -> b ∈ rs -> key_lt (sort_key a) (sort_key b) = true ->
         exists l1 l2 l3, sort_doc_results rs = l1 ++ a :: l2 ++ b :: l3)
  /\ (forall a b p,
         page_number a = Some p -> (p < 9999)%Z -> p <> 0%Z ->
         page_number b = None ->
         key_lt (sort_key a) (sort_key b) = true)
  /\ (forall results a b,
         a ∈ results -> b ∈ results ->
         document_id a = document_id b -> truthy (document_id a) = true ->
         page_number a = Some 1%Z -> page_number b = Some 3%Z ->
         exists rs l1 l2 l3,
           (document_id a, rs) ∈ group_results_by_document results
           /\ sort_doc_results rs = l1 ++ a :: l2 ++ b :: l3)
  /\ (forall results query a b,
         a ∈ results -> b ∈ results ->
         document_id a = document_id b -> truthy (document_id a) = true ->
         page_number a = Some 1%Z -> page_number b = Some 3%Z ->
         build_context_for_llm results query
         = join nl (context_parts results query)
         /\ exists before mid after,
             context_parts results query
             = before ++ render_result a ++ mid ++ render_result b
                 ++ after).
Proof.
  split; [apply group_results_by_document_spec|].
  split; [reflexivity|].
  split; [intros rs; split;
          [apply sort_doc_results_perm|apply sort_doc_results_sorted]|].
  split; [apply sort_doc_results_before|].
  split; [|split].
  - intros a b p Ha Hp Hp0 Hb. unfold key_lt, sort_key, page_or_9999.
    rewrite Ha, Hb. cbn [fst snd].
    destruct (Z.eqb_spec p 0); [contradiction|].
    destruct (Z.ltb_spec p 9999); [reflexivity|lia].
  - intros results a b Ha Hb Hdoc Hd Hpa Hpb.
    set (rs := List.filter (same_doc (document_id a)) results).
    assert (Hain : a ∈ rs).
    { apply list_elem_of_In, filter_In. split; [by apply list_elem_of_In|].
      apply String.eqb_refl. }
    assert (Hbin : b ∈ rs).
    { apply list_elem_of_In, filter_In. split; [by apply list_elem_of_In|].
      unfold same_doc. rewrite Hdoc. apply String.eqb_refl. }
    destruct (sort_doc_results_before rs a b Hain Hbin)
      as (l1 & l2 & l3 & E).
    { unfold key_lt, sort_key, page_or_9999. rewrite Hpa, Hpb. reflexivity. }
    exists rs, l1, l2, l3. split; [|exact E].
    apply group_results_by_document_spec.
    split; [exact Hd|]. split; [|reflexivity].
    intros Hnil. rewrite Hnil in Hain. inversion Hain.
  - intros results query a b Ha Hb Hdoc Hd Hpa Hpb.
    split; [apply (build_context_nonempty results query a Ha)|].
    apply context_parts_before; try assumption.
    unfold key_lt, sort_key, page_or_9999. rewrite Hpa, Hpb. reflexivity.
Qed.

Lemma context_groups_sorted_by_page_or_9999_witness :
  page_3 ∈ [page_3; no_page; page_1]
  /\ page_1 ∈ [page_3; no_page; page_1]
  /\ (exists rs l1 l2 l3,
        (document_id page_1, rs)
          ∈ group_results_by_document [page_3; no_page; page_1]
        /\ sort_doc_results rs = l1 ++ page_1 :: l2 ++ page_3 :: l3)
  /\ exists before mid after,
      context_parts [page_3; no_page; page_1] "q"
      = before ++ render_result page_1 ++ mid ++ render_result page_3
          ++ after.
Proof.
  assert (H3 : page_3 ∈ [page_3; no_page; page_1]) by (left).
  assert (H1 : page_1 ∈ [page_3; no_page; page_1])
    by (right; right; left).
  split; [exact H3|]. split; [exact H1|]. split.
  - apply (proj1 (proj2 (proj2 (proj2 (proj2 (proj2
             context_groups_sorted_by_page_or_9999)))))
             [page_3; no_page; page_1] page_1 page_3 H1 H3);
      reflexivity.
  - apply (proj2 (proj2 (proj2 (proj2 (proj2 (proj2
             context_groups_sorted_by_page_or_9999)))))
             [page_3; no_page; page_1] "q" page_1 page_3 H1 H3);
      reflexivity.
Defined.

(** C10. A result whose page number is 0 has the sort key
    (9999, chunk_id), the key it would have without page number, so every
    result with a page number from 1 to 9998 comes before it; its block
    carries no page annotation and is the block it would have without
    page number; and replacing page number 0 by no page number throughout
    a result list leaves the assembled context unchanged. In the sorted
    group every result with a page number from 1 to 9998 stands to the
    left of the result of page 0, and so does its block in the assembled
    context, wherever the two stand in the input; a result of page 0 and
    a result without page number stand in the order of their chunk
    ids. *)
Theorem page_zero_is_no_page :
  (forall r,
      page_number r = Some 0%Z ->
      sort_key r = (9999%Z, chunk_id r)
      /\ sort_key r = sort_key (Spec.with_page None r)
      /\ page_info r = EmptyString
      /\ render_result r = render_result (Spec.with_page None r))
  /\ (forall r r' p,
         page_number r = Some 0%Z -> page_number r' = Some p ->
         (1 <= p <= 9998)%Z ->
         key_lt (sort_key r') (sort_key r) = true)
  /\ (forall results query,
         build_context_for_llm (map Spec.page_zero_as_none results) query
         = build_context_for_llm results query)
  /\ (forall rs r r' p,
         r ∈ rs -> r' ∈ rs ->
         page_number r = Some 0%Z -> page_number r' = Some p ->
         (1 <= p <= 9998)%Z ->
         exists l1 l2 l3, sort_doc_results rs = l1 ++ r' :: l2 ++ r :: l3)
  /\ (forall results query r r' p,
         r ∈ results -> r' ∈ results ->
         document_id r = document_id r' -> truthy (document_id r) = true ->
         page_number r = Some 0%Z -> page_number r' = Some p ->
         (1 <= p <= 9998)%Z ->
         build_context_for_llm results query
         = join nl (context_parts results query)
         /\ exists before mid after,
             context_parts results query
             = before ++ render_result r' ++ mid ++ render_result r
                 ++ after)
  /\ (forall rs r r',
         r ∈ rs -> r' ∈ rs ->
         page_number r = Some 0%Z -> page_number r' = None ->
         (String.ltb (chunk_id r) (chunk_id r') = true ->
          exists l1 l2 l3, sort_doc_results rs = l1 ++ r :: l2 ++ r' :: l3)
         /\ (String.ltb (chunk_id r') (chunk_id r) = true ->
             exists l1 l2 l3,
               sort_doc_results rs = l1 ++ r' :: l2 ++ r :: l3)).
Proof.
  split; [|split; [|split; [apply build_context_page_zero|]]].
  - intros r E.
    pose proof (page_zero_sort_key r) as Hk.
    pose proof (page_zero_render_result r) as Hr.
    unfold Spec.page_zero_as_none in Hk, Hr. rewrite E in Hk, Hr.
    cbn [Z.eqb] in Hk, Hr.
    split; [unfold sort_key, page_or_9999; rewrite E; reflexivity|].
    split; [symmetry; exact Hk|].
    split; [unfold page_info; rewrite E; reflexivity|].
    symmetry; exact Hr.
  - intros r r' p E E' Hp. apply (key_lt_page_zero r r' p E E' Hp).
  - split; [|split].
    + intros rs r r' p Hr Hr' E E' Hp.
      apply sort_doc_results_before; [exact Hr'|exact Hr|].
      apply (key_lt_page_zero r r' p E E' Hp).
    + intros results query r r' p Hr Hr' Hdoc Hd E E' Hp.
      split; [apply (build_context_nonempty results query r Hr)|].
      apply context_parts_before; try assumption.
      * symmetry. exact Hdoc.
      * rewrite <- Hdoc. exact Hd.
      * apply (key_lt_page_zero r r' p E E' Hp).
    + intros rs r r' Hr Hr' E E'. split; intros Hlt;
        apply sort_doc_results_before; try assumption;
        unfold key_lt, sort_key, page_or_9999; rewrite E, E';
        cbn [fst snd Z.eqb Z.ltb Z.compare Pos.compare Pos.compare_cont orb
               andb]; exact Hlt.
Qed.

Lemma page_zero_is_no_page_witness :
  page_number page_0 = Some 0%Z
  /\ page_number page_3 = Some 3%Z
  /\ (1 <= 3 <= 9998)%Z
  /\ sort_key page_0 = (9999%Z, chunk_id page_0)
  /\ key_lt (sort_key page_3) (sort_key page_0) = true
  /\ (exists l1 l2 l3,
        sort_doc_results [page_0; page_3] = l1 ++ page_3 :: l2 ++ page_0 :: l3)
  /\ exists before mid after,
      context_parts [page_0; page_3] "q"
      = before ++ render_result page_3 ++ mid ++ render_result page_0
          ++ after.
Proof.
  assert (H0 : page_number page_0 = Some 0%Z) by reflexivity.
  assert (H3 : page_number page_3 = Some 3%Z) by reflexivity.
  assert (Hp : (1 <= 3 <= 9998)%Z) by lia.
  assert (Hi0 : page_0 ∈ [page_0; page_3]) by (left).
  assert (Hi3 : page_3 ∈ [page_0; page_3]) by (right; left).
  split; [exact H0|]. split; [exact H3|]. split; [exact Hp|].
  split; [|split; [|split]].
  - apply (proj1 page_zero_is_no_page page_0 H0).
  - apply (proj1 (proj2 page_zero_is_no_page) page_0 page_3 3%Z H0 H3 Hp).
  - apply (proj1 (proj2 (proj2 (proj2 page_zero_is_no_page)))
             [page_0; page_3] page_0 page_3 3%Z Hi0 Hi3 H0 H3 Hp).
  - apply (proj1 (proj2 (proj2 (proj2 (proj2 page_zero_is_no_page))))
             [page_0; page_3] "q" page_0 page_3 3%Z Hi0 Hi3);
      try reflexivity; exact Hp.
Defined.

End AssemblerFacts.

(** * Further properties of the code *)

(** ** Segmenter: non-empty, stripped chunks; chunk count; short texts *)

Module SegmenterMore.
Import PyStr PyStrFacts StrPred Segmenter.

Local Arguments String.append !_ _ : simpl nomatch.

Lemma truthy_rstrip s : truthy (rstrip s) = has_nonspace s.
Proof.
  induction s as [|c s IH]; [reflexivity|].
  cbn [rstrip has_nonspace]. rewrite <- IH.
  destruct (is_space c), (truthy (rstrip s)); reflexivity.
Qed.

Lemma has_nonspace_lstrip s : has_nonspace (lstrip s) = has_nonspace s.
Proof.
  induction s as [|c s IH]; [reflexivity|].
  cbn [lstrip]. destruct (is_space c) eqn:E; [|reflexivity].
  cbn [has_nonspace]. rewrite E. exact IH.
Qed.

Lemma truthy_strip s : truthy (strip s) = has_nonspace s.
Proof. unfold strip. rewrite truthy_rstrip. apply has_nonspace_lstrip. Qed.

Lemma has_nonspace_app a b :
  has_nonspace (a +:+ b) = has_nonspace a || has_nonspace b.
Proof.
  induction a as [|c a IH]; [reflexivity|].
  simpl. rewrite IH. apply orb_assoc.
Qed.

Lemma truthy_app a b : truthy (a +:+ b) = truthy a || truthy b.
Proof. destruct a; reflexivity. Qed.

Lemma rstrip_idem s : rstrip (rstrip s) = rstrip s.
Proof.
  induction s as [|c s IH]; [reflexivity|].
  cbn [rstrip].
  destruct (is_space c && negb (truthy (rstrip s))) eqn:E; [reflexivity|].
  cbn [rstrip]. rewrite IH, E. reflexivity.
Qed.

Lemma starts_clean_lstrip s : starts_clean (lstrip s) = true.
Proof.
  induction s as [|c s IH]; [reflexivity|].
  cbn [lstrip]. destruct (is_space c) eqn:E; [exact IH|].
  cbn [starts_clean]. rewrite E. reflexivity.
Qed.

Lemma lstrip_clean s : starts_clean s = true -> lstrip s = s.
Proof.
  destruct s as [|c s]; [reflexivity|]. cbn [starts_clean lstrip].
  destruct (is_space c); [discriminate|reflexivity].
Qed.

Lemma starts_clean_rstrip s :
  starts_clean s = true -> starts_clean (rstrip s) = true.
Proof.
  destruct s as [|c s]; [reflexivity|]. cbn [starts_clean rstrip].
  destruct (is_space c) eqn:E; [discriminate|]. intros _.
  cbn [andb starts_clean]. rewrite E. reflexivity.
Qed.

Lemma stripped_strip s : stripped (strip s).
Proof.
  split.
  - apply starts_clean_rstrip, starts_clean_lstrip.
  - apply rstrip_idem.
Qed.

Lemma strip_stripped s : stripped s -> strip s = s.
Proof. intros [H1 H2]. unfold strip. rewrite lstrip_clean by exact H1. exact H2. Qed.

Lemma rstrip_app a b :
  rstrip b = b -> truthy b = true -> rstrip (a +:+ b) = a +:+ b.
Proof.
  intros Hb Tb. induction a as [|c a IH]; [exact Hb|].
  simpl. rewrite IH, truthy_app, Tb, orb_true_r, andb_false_r. reflexivity.
Qed.

Lemma lstrip_app a b :
  starts_clean a = true -> truthy a = true -> lstrip (a +:+ b) = a +:+ b.
Proof.
  destruct a as [|c a]; [discriminate|]. simpl.
  destruct (is_space c); [discriminate|reflexivity].
Qed.

(** The paragraphs are stripped and hold a non-space character. *)
Lemma paragraphs_of_spec text p :
  p ∈ paragraphs_of text ->
  stripped p /\ truthy p = true /\ has_nonspace p = true.
Proof.
  unfold paragraphs_of. intros H.
  apply list_elem_of_filter in H as [Hp H].
  apply list_elem_of_fmap in H as (x & -> & _).
  split; [apply stripped_strip|]. split; [exact Hp|].
  rewrite <- (truthy_rstrip (strip x)). unfold strip in *.
  rewrite rstrip_idem. exact Hp.
Qed.

Lemma chunk_step_chunks_good st p :
  has_nonspace p = true ->
  Forall (fun c => strip c = c /\ truthy c = true) st.1 ->
  (truthy st.2 = true -> has_nonspace st.2 = true) ->
  Forall (fun c => strip c = c /\ truthy c = true) (chunk_step st p).1
  /\ has_nonspace (chunk_step st p).2 = true.
Proof.
  destruct st as [chunks cur]. cbn [fst snd]. intros Hp Hc Hcur.
  unfold chunk_step.
  destruct ((TEXT_CHUNK_SIZE <? _)%nat && truthy cur) eqn:E; cbn [fst snd].
  - apply andb_true_iff in E as [_ T]. split.
    + apply Forall_app. split; [exact Hc|]. constructor; [|constructor].
      split; [apply strip_stripped, stripped_strip|].
      rewrite truthy_strip. auto.
    + rewrite !has_nonspace_app, Hp, !orb_true_r. reflexivity.
  - destruct (truthy cur); cbn [fst snd]; split; try exact Hc; try exact Hp.
    rewrite !has_nonspace_app, Hp, !orb_true_r. reflexivity.
Qed.

Lemma fold_chunk_step_good ps : forall st,
  Forall (fun p => has_nonspace p = true) ps ->
  Forall (fun c => strip c = c /\ truthy c = true) st.1 ->
  (truthy st.2 = true -> has_nonspace st.2 = true) ->
  Forall (fun c => strip c = c /\ truthy c = true)
    (fold_left chunk_step ps st).1
  /\ (truthy (fold_left chunk_step ps st).2 = true ->
      has_nonspace (fold_left chunk_step ps st).2 = true).
Proof.
  induction ps as [|p ps IH]; intros st Hps Hc Hcur; [auto|].
  inversion Hps as [|? ? Hp Hps']; subst. cbn [fold_left].
  destruct (chunk_step_chunks_good st p Hp Hc Hcur) as [H1 H2].
  apply IH; auto.
Qed.

(** Every chunk is non-empty and carries no whitespace at either end. *)
Theorem chunk_text_chunks_stripped_nonempty text c :
  c ∈ chunk_text text -> strip c = c /\ truthy c = true.
Proof.
  unfold chunk_text. destruct (negb (truthy text)); [intros H; inversion H|].
  destruct (fold_chunk_step_good (paragraphs_of text) ([], EmptyString))
    as [H1 H2].
  - apply Forall_forall. intros p Hp.
    apply (paragraphs_of_spec text p Hp).
  - constructor.
  - discriminate.
  - destruct (fold_left chunk_step (paragraphs_of text) ([], EmptyString))
      as [chunks cur]. cbn [fst snd] in H1, H2.
    rewrite Forall_forall in H1.
    destruct (truthy cur) eqn:T; [|apply H1].
    intros H. apply elem_of_app in H as [H|H]; [by apply H1|].
    apply list_elem_of_singleton in H as ->.
    split; [apply strip_stripped, stripped_strip|].
    rewrite truthy_strip. auto.
Qed.

Lemma chunk_text_chunks_stripped_nonempty_witness :
  "Python is great." ∈ chunk_text ("Python is great. " +:+ nlnl +:+ " ")
  /\ strip "Python is great." = "Python is great.".
Proof.
  assert (H : "Python is great."
              ∈ chunk_text ("Python is great. " +:+ nlnl +:+ " "))
    by (vm_compute; left).
  split; [exact H|].
  exact (proj1 (chunk_text_chunks_stripped_nonempty _ _ H)).
Defined.

Lemma string_length_app a b :
  String.length (a +:+ b) = (String.length a + String.length b)%nat.
Proof. induction a as [|c a IH]; simpl; congruence. Qed.

Lemma string_app_assoc a b c : (a +:+ b) +:+ c = a +:+ (b +:+ c).
Proof. induction a as [|x a IH]; simpl; congruence. Qed.

Lemma chunk_step_count st p n :
  (length st.1 + (if truthy st.2 then 1 else 0) <= n)%nat ->
  truthy p = true ->
  (length (chunk_step st p).1 + 1 <= S n)%nat
  /\ truthy (chunk_step st p).2 = true.
Proof.
  destruct st as [chunks cur]. cbn [fst snd]. intros Hn Hp.
  unfold chunk_step.
  destruct ((TEXT_CHUNK_SIZE <? _)%nat && truthy cur) eqn:E; cbn [fst snd].
  - apply andb_true_iff in E as [_ T]. rewrite T in Hn.
    rewrite length_app, !truthy_app, Hp, !orb_true_r. simpl. split; [lia|auto].
  - destruct (truthy cur) eqn:T; cbn [fst snd].
    + rewrite !truthy_app, T. split; [lia|reflexivity].
    + split; [lia|exact Hp].
Qed.

Lemma fold_chunk_step_count ps : forall st n,
  (length st.1 + (if truthy st.2 then 1 else 0) <= n)%nat ->
  Forall (fun p => truthy p = true) ps ->
  (length (fold_left chunk_step ps st).1
   + (if truthy (fold_left chunk_step ps st).2 then 1 else 0)
   <= n + length ps)%nat
  /\ (ps <> [] -> truthy (fold_left chunk_step ps st).2 = true).
Proof.
  induction ps as [|p ps IH]; intros st n Hn Hps.
  - cbn [fold_left length]. split; [lia|congruence].
  - inversion Hps as [|? ? Hp Hps']; subst. cbn [fold_left].
    destruct (chunk_step_count st p n Hn Hp) as [H1 H2].
    destruct (IH (chunk_step st p) (S n)) as [H3 H4]; [|exact Hps'|].
    + rewrite H2. exact H1.
    + cbn [length]. split; [lia|]. intros _.
      destruct ps as [|q ps]; [exact H2|]. apply H4. discriminate.
Qed.

Lemma paragraphs_of_truthy text :
  Forall (fun p => truthy p = true) (paragraphs_of text).
Proof.
  apply Forall_forall. intros p Hp. apply (paragraphs_of_spec text p Hp).
Qed.

(** There are never more chunks than paragraphs, and there is a chunk
    exactly when there is a paragraph that is not blank. *)
Theorem chunk_text_count text :
  (length (chunk_text text) <= length (paragraphs_of text))%nat
  /\ (chunk_text text = [] <-> paragraphs_of text = []).
Proof.
  unfold chunk_text. destruct text as [|c text].
  - split; [cbn; lia|]. split; reflexivity.
  - cbn [truthy negb].
    destruct (fold_chunk_step_count (paragraphs_of (String c text))
                ([], EmptyString) 0) as [H1 H2];
      [cbn; lia|apply paragraphs_of_truthy|].
    destruct (fold_left chunk_step (paragraphs_of (String c text))
                ([], EmptyString)) as [chunks cur] eqn:E.
    cbn [fst snd] in H1, H2.
    destruct (paragraphs_of (String c text)) as [|p ps] eqn:Ep.
    + cbn in E. injection E as <- <-. split; [cbn; lia|]. split; reflexivity.
    + rewrite H2 in * by discriminate. rewrite length_app. cbn [length] in *.
      split; [lia|]. split; [|discriminate].
      intros H. apply app_eq_nil in H as [_ H]. discriminate.
Qed.

Lemma chunk_text_count_witness :
  chunk_text ("  " +:+ nlnl +:+ " ") = [].
Proof.
  apply (proj2 (proj2 (chunk_text_count ("  " +:+ nlnl +:+ " ")))).
  reflexivity.
Defined.

Lemma join_joined_tail p ps : join nlnl (p :: ps) = p +:+ joined_tail ps.
Proof.
  unfold join. revert p. induction ps as [|q ps IH]; intros p.
  - symmetry. apply append_nil_r.
  - change (String.concat nlnl (p :: q :: ps))
      with (p +:+ nlnl +:+ String.concat nlnl (q :: ps)).
    rewrite IH. reflexivity.
Qed.

Lemma fold_chunk_step_no_split ps : forall cur,
  truthy cur = true ->
  (String.length (cur +:+ joined_tail ps) <= TEXT_CHUNK_SIZE)%nat ->
  fold_left chunk_step ps ([], cur) = ([], cur +:+ joined_tail ps).
Proof.
  induction ps as [|p ps IH]; intros cur T Hlen.
  - cbn [fold_left joined_tail]. rewrite append_nil_r. reflexivity.
  - cbn [fold_left joined_tail] in *. unfold chunk_step at 2.
    rewrite !string_length_app in Hlen.
    destruct (Nat.ltb_spec TEXT_CHUNK_SIZE
                (String.length cur + String.length p)) as [Hgt|_]; [lia|].
    cbn [andb]. rewrite T.
    rewrite IH.
    + rewrite !string_app_assoc. reflexivity.
    + rewrite !truthy_app, T. reflexivity.
    + rewrite !string_app_assoc, !string_length_app. lia.
Qed.

Lemma stripped_joined ps : forall p,
  rstrip p = p -> truthy p = true ->
  Forall (fun q => rstrip q = q /\ truthy q = true) ps ->
  rstrip (p +:+ joined_tail ps) = p +:+ joined_tail ps.
Proof.
  induction ps as [|q ps IH]; intros p Hp Tp Hps.
  - cbn [joined_tail]. rewrite append_nil_r. exact Hp.
  - inversion Hps as [|? ? [Hq Tq] Hps']; subst. cbn [joined_tail].
    apply rstrip_app; [|rewrite !truthy_app; reflexivity].
    apply rstrip_app; [apply IH; assumption|].
    rewrite truthy_app, Tq. reflexivity.
Qed.

(** A text whose paragraphs, joined by blank lines, fit into the chunk
    size is returned as one chunk: its paragraphs, stripped and joined by
    blank lines. *)
Theorem chunk_text_short_text_single_chunk text p ps :
  paragraphs_of text = p :: ps ->
  (String.length (join nlnl (p :: ps)) <= TEXT_CHUNK_SIZE)%nat ->
  chunk_text text = [join nlnl (p :: ps)].
Proof.
  intros Hps Hlen. rewrite join_joined_tail in *.
  assert (Hall : forall q, q ∈ p :: ps -> stripped q /\ truthy q = true).
  { intros q Hq. rewrite <- Hps in Hq.
    destruct (paragraphs_of_spec text q Hq) as (? & ? & _). auto. }
  destruct (Hall p) as [[Cp Rp] Tp]; [left|].
  unfold chunk_text. destruct text as [|c text]; [discriminate|].
  cbn [truthy negb]. rewrite Hps. cbn [fold_left].
  replace (chunk_step ([], EmptyString) p) with (@nil string, p)
    by (unfold chunk_step; cbn [truthy]; rewrite andb_false_r; reflexivity).
  rewrite fold_chunk_step_no_split by assumption.
  rewrite truthy_app, Tp. cbn [orb app]. f_equal.
  unfold strip. rewrite lstrip_app by assumption.
  apply stripped_joined; [assumption..|].
  apply Forall_forall. intros q Hq.
  destruct (Hall q) as [[_ Rq] Tq]; [by right|auto].
Qed.

Lemma chunk_text_short_text_single_chunk_witness :
  chunk_text ("Python is great. " +:+ nlnl +:+ " JavaScript is also nice.")
  = ["Python is great." +:+ nlnl +:+ "JavaScript is also nice."].
Proof.
  apply (chunk_text_short_text_single_chunk _ "Python is great."
           ["JavaScript is also nice."]).
  - vm_compute; reflexivity.
  - vm_compute. lia.
Defined.

Lemma prefix_app p b : String.prefix p (p +:+ b) = true.
Proof.
  induction p as [|c p IH]; [destruct b; reflexivity|].
  simpl. destruct (ascii_dec c c); [exact IH|congruence].
Qed.

Lemma contains_infix a p b : contains p (a +:+ p +:+ b) = true.
Proof.
  induction a as [|c a IH].
  - change (EmptyString +:+ p +:+ b) with (p +:+ b).
    destruct (p +:+ b) eqn:E; cbn [contains]; rewrite <- E, prefix_app;
      reflexivity.
  - change (String c a +:+ p +:+ b) with (String c (a +:+ p +:+ b)).
    cbn [contains]. rewrite IH. apply orb_true_r.
Qed.

Lemma lstrip_infix a p b :
  starts_clean p = true -> truthy p = true ->
  exists a', lstrip (a +:+ p +:+ b) = a' +:+ p +:+ b.
Proof.
  intros Hc Tp. induction a as [|c a IH].
  - exists EmptyString. apply (lstrip_app p b Hc Tp).
  - change (String c a +:+ p +:+ b) with (String c (a +:+ p +:+ b)).
    cbn [lstrip]. destruct (is_space c); [exact IH|].
    exists (String c a). reflexivity.
Qed.

Lemma rstrip_prefix p b :
  rstrip p = p -> truthy p = true ->
  exists b', rstrip (p +:+ b) = p +:+ b'.
Proof.
  induction p as [|c p IH]; [discriminate|]. intros Hr _.
  cbn [rstrip] in Hr.
  destruct (is_space c && negb (truthy (rstrip p))) eqn:E; [discriminate|].
  injection Hr as Hr.
  change (String c p +:+ b) with (String c (p +:+ b)). cbn [rstrip].
  destruct p as [|d p].
  - change (EmptyString +:+ b) with b. cbn in E.
    rewrite andb_true_r in E. rewrite E. cbn [andb].
    exists (rstrip b). reflexivity.
  - destruct (IH Hr eq_refl) as [b' Hb']. rewrite Hb'.
    change (truthy (String d p +:+ b')) with true.
    rewrite andb_false_r. exists b'. reflexivity.
Qed.

Lemma rstrip_infix a p b :
  rstrip p = p -> truthy p = true ->
  exists b', rstrip (a +:+ p +:+ b) = a +:+ p +:+ b'.
Proof.
  intros Hr Tp. destruct (rstrip_prefix p b Hr Tp) as [b' Hb'].
  exists b'. induction a as [|c a IH]; [exact Hb'|].
  change (String c a +:+ p +:+ b) with (String c (a +:+ p +:+ b)).
  cbn [rstrip]. rewrite IH, !truthy_app, Tp, orb_true_r, andb_false_r.
  reflexivity.
Qed.

Lemma strip_infix a p b :
  stripped p -> truthy p = true ->
  exists a' b', strip (a +:+ p +:+ b) = a' +:+ p +:+ b'.
Proof.
  intros [Hc Hr] Tp. unfold strip.
  destruct (lstrip_infix a p b Hc Tp) as [a' ->].
  destruct (rstrip_infix a' p b Hr Tp) as [b' ->]. eauto.
Qed.

(** What the loop of [chunk_text] keeps of the paragraph [p]: it is part
    of a finished chunk or of the current one. *)
Lemma chunk_step_keeps st p q :
  stripped p -> truthy p = true ->
  (exists c, c ∈ st.1 /\ contains p c = true)
  \/ (exists a b, st.2 = a +:+ p +:+ b) ->
  (exists c, c ∈ (chunk_step st q).1 /\ contains p c = true)
  \/ (exists a b, (chunk_step st q).2 = a +:+ p +:+ b).
Proof.
  destruct st as [chunks cur]. cbn [fst snd]. intros Hs Tp H.
  unfold chunk_step.
  destruct ((TEXT_CHUNK_SIZE <? _)%nat && truthy cur) eqn:E; cbn [fst snd].
  - left. destruct H as [(c & Hc & Hp)|(a & b & ->)].
    + exists c. split; [apply elem_of_app; left; exact Hc|exact Hp].
    + destruct (strip_infix a p b Hs Tp) as (a' & b' & Hab).
      exists (a' +:+ p +:+ b'). split; [|apply contains_infix].
      apply elem_of_app. right. rewrite Hab. apply list_elem_of_here.
  - destruct H as [H|(a & b & ->)].
    + left. destruct (truthy cur); exact H.
    + right. rewrite !truthy_app, Tp, orb_true_r.
      exists a, (b +:+ nlnl +:+ q). cbn [fst snd].
      rewrite !string_app_assoc. reflexivity.
Qed.

Lemma chunk_step_keeps_new st q :
  exists a b, (chunk_step st q).2 = a +:+ q +:+ b.
Proof.
  destruct st as [chunks cur]. unfold chunk_step.
  destruct ((TEXT_CHUNK_SIZE <? _)%nat && truthy cur); cbn [fst snd].
  - eexists _, EmptyString. rewrite append_nil_r, string_app_assoc.
    reflexivity.
  - destruct (truthy cur); cbn [fst snd].
    + exists (cur +:+ nlnl), EmptyString.
      rewrite append_nil_r, string_app_assoc. reflexivity.
    + exists EmptyString, EmptyString. rewrite append_nil_r. reflexivity.
Qed.

Lemma fold_chunk_step_keeps ps : forall st p,
  stripped p -> truthy p = true ->
  (exists c, c ∈ st.1 /\ contains p c = true)
  \/ (exists a b, st.2 = a +:+ p +:+ b) ->
  (exists c, c ∈ (fold_left chunk_step ps st).1 /\ contains p c = true)
  \/ (exists a b, (fold_left chunk_step ps st).2 = a +:+ p +:+ b).
Proof.
  induction ps as [|q ps IH]; intros st p Hs Tp H; [exact H|].
  cbn [fold_left]. apply IH; [exact Hs|exact Tp|].
  apply chunk_step_keeps; assumption.
Qed.

Lemma fold_chunk_step_keeps_all ps : forall st p,
  Forall (fun q => stripped q /\ truthy q = true) ps ->
  p ∈ ps ->
  (exists c, c ∈ (fold_left chunk_step ps st).1 /\ contains p c = true)
  \/ (exists a b, (fold_left chunk_step ps st).2 = a +:+ p +:+ b).
Proof.
  induction ps as [|q ps IH]; intros st p Hall Hin; [inversion Hin|].
  inversion Hall as [|? ? [Hs Tq] Hall']; subst. cbn [fold_left].
  apply elem_of_cons in Hin as [->|Hin].
  - apply fold_chunk_step_keeps; [exact Hs|exact Tq|].
    right. apply chunk_step_keeps_new.
  - apply IH; assumption.
Qed.

(** No paragraph is lost: every paragraph of the text that is not blank
    is, stripped, a part of some chunk. *)
Theorem chunk_text_keeps_every_paragraph text p :
  p ∈ paragraphs_of text ->
  exists c, c ∈ chunk_text text /\ contains p c = true.
Proof.
  intros Hin.
  assert (Forall (fun q => stripped q /\ truthy q = true)
            (paragraphs_of text)) as Hall.
  { apply Forall_forall. intros q Hq.
    destruct (paragraphs_of_spec text q Hq) as (? & ? & _). auto. }
  destruct (paragraphs_of_spec text p Hin) as (Hs & Tp & _).
  unfold chunk_text. destruct text as [|ch text]; [inversion Hin|].
  cbn [truthy negb].
  destruct (fold_chunk_step_keeps_all _ ([], EmptyString) p Hall Hin)
    as [(c & Hc & Hp)|(a & b & E)];
    destruct (fold_left chunk_step (paragraphs_of (String ch text))
                ([], EmptyString)) as [chunks cur]; cbn [fst snd] in *.
  - exists c. split; [|exact Hp].
    destruct (truthy cur); [apply elem_of_app; left|]; exact Hc.
  - subst cur. rewrite !truthy_app, Tp, orb_true_r.
    destruct (strip_infix a p b Hs Tp) as (a' & b' & Hab).
    exists (a' +:+ p +:+ b'). split; [|apply contains_infix].
    apply elem_of_app. right. rewrite Hab. apply list_elem_of_here.
Qed.

Lemma chunk_text_keeps_every_paragraph_witness :
  exists c,
    c ∈ chunk_text ("Intro." +:+ nlnl +:+ "  Body text. ")
    /\ contains "Body text." c = true.
Proof.
  apply (chunk_text_keeps_every_paragraph
           ("Intro." +:+ nlnl +:+ "  Body text. ") "Body text.").
  apply list_elem_of_further, list_elem_of_here.
Defined.

End SegmenterMore.

(** ** Embedding dispatcher: the image path and empty content *)

Module EmbedderMore.
Import PyStr Py Embedder Examples.

(** [embed_image] never raises. A missing file gives a zero vector of
    length 512 without any message, with or without CLIP; a CLIP failure
    gives a zero vector of length 512 and a message; without CLIP, an OCR
    failure gives a zero vector of the text model's dimension after the
    message of [extract_text_from_image], and a failure of the text model
    on the extracted text gives the same vector after the message of
    [embed_image]. *)
Theorem embed_image_degrades_to_zero_vector (M : models) (path : string) :
  (exists out v, embed_image M path = (out, Returns v))
  /\ (path_exists M path = false ->
      embed_image M path = ([], Returns (zeros 512)))
  /\ (forall e,
         path_exists M path = true -> has_clip M = true ->
         clip_image_features M path = Raises e ->
         embed_image M path
         = (["Error embedding image"], Returns (zeros 512)))
  /\ (forall e,
         path_exists M path = true -> has_clip M = false ->
         image_to_string M path = Raises e ->
         embed_image M path
         = (["Error extracting text from image"],
            Returns (zeros (get_sentence_embedding_dimension M))))
  /\ (forall text e,
         path_exists M path = true -> has_clip M = false ->
         image_to_string M path = Returns text ->
         truthy (strip text) = true ->
         encode M (strip text) = Raises e ->
         embed_image M path
         = (["Error embedding image"],
            Returns (zeros (get_sentence_embedding_dimension M)))).
Proof.
  split; [|split; [|split; [|split]]].
  - pose proof (EmbedderFacts.embed_image_returns M path) as H.
    destruct (embed_image M path) as [out [v|e]]; [eauto|discriminate].
  - intros E. unfold embed_image. rewrite E. reflexivity.
  - intros e E Hc Hf. unfold embed_image. rewrite E, Hc, Hf. reflexivity.
  - intros e E Hc Hf. unfold embed_image, extract_text_from_image.
    rewrite E, Hc, Hf. reflexivity.
  - intros text e E Hc Ht Hs Hf.
    unfold embed_image, extract_text_from_image, embed_text.
    rewrite E, Hc, Ht. cbn [negb call bind ret try_except app].
    rewrite Hs. cbn [negb]. rewrite Hf. reflexivity.
Qed.

Lemma embed_image_degrades_to_zero_vector_witness :
  path_exists failing_models "page1_img1.png" = true
  /\ has_clip failing_models = false
  /\ image_to_string failing_models "page1_img1.png" = Returns "scanned text"
  /\ embed_image failing_models "page1_img1.png"
     = (["Error embedding image"], Returns (zeros 384)).
Proof.
  split; [reflexivity|]. split; [reflexivity|]. split; [reflexivity|].
  apply (proj2 (proj2 (proj2 (proj2
           (embed_image_degrades_to_zero_vector failing_models
              "page1_img1.png")))) "scanned text" RuntimeError);
    reflexivity.
Defined.

(** A chunk that is not an image and has empty content is embedded as the
    zero vector of the text model's dimension: the model is not called and
    nothing can be raised. *)
Theorem embed_chunk_empty_content (M : models) (c : chunk) :
  chunk_type c <> "image" -> content c = EmptyString ->
  embed_chunk M c = ([], Returns (zeros (get_sentence_embedding_dimension M))).
Proof.
  intros Hty Hc. unfold embed_chunk, embed_code, embed_text.
  destruct (String.eqb_spec (chunk_type c) "text"); [rewrite Hc; reflexivity|].
  destruct (String.eqb_spec (chunk_type c) "image"); [contradiction|].
  destruct (String.eqb_spec (chunk_type c) "code"); cbn; rewrite Hc; reflexivity.
Qed.

Lemma embed_chunk_empty_content_witness :
  embed_chunk failing_models
    {| chunk_type := "code"; content := EmptyString;
       image_path := EmptyString; language := "python" |}
  = ([], Returns (zeros 384)).
Proof.
  apply (embed_chunk_empty_content failing_models); [discriminate|reflexivity].
Defined.

End EmbedderMore.

(** ** Stable sort: ties *)

Module PySortMore.
Import PySort.

Section Stability.
Context {A : Type} (before : A -> A -> bool) (p : A -> bool).

(** The elements selected by [p] are not ordered among themselves. *)
Hypothesis p_class : forall x y, p x = true -> p y = true -> before y x = false.

Lemma filter_insert_stable x l :
  List.filter p (insert_stable before x l) = List.filter p (x :: l).
Proof.
  induction l as [|y l IH]; [reflexivity|].
  cbn [insert_stable]. destruct (before y x) eqn:E; [|reflexivity].
  cbn [List.filter] in *. rewrite IH.
  destruct (p x) eqn:Px; [|reflexivity].
  destruct (p y) eqn:Py; [|reflexivity].
  rewrite (p_class x y Px Py) in E. discriminate.
Qed.

(** Sorting keeps the relative order of such elements. *)
Lemma filter_sort_stable l :
  List.filter p (sort before l) = List.filter p l.
Proof.
  induction l as [|x l IH]; [reflexivity|].
  cbn [sort foldr]. fold (sort before l).
  rewrite filter_insert_stable. cbn [List.filter]. rewrite IH. reflexivity.
Qed.

End Stability.

Lemma StronglySorted_weaken {A} (R S : A -> A -> Prop) l :
  (forall x y, R x y -> S x y) -> StronglySorted R l -> StronglySorted S l.
Proof.
  intros H. induction 1 as [|x l Hl IH Hx]; constructor; [exact IH|].
  eapply Forall_impl; [exact Hx|]. intros y. apply H.
Qed.

End PySortMore.

(** ** Hybrid ranker: order of the result, ties, frame, letter case *)

Module RankerMore.
Import PyStr Retriever Examples RankerFacts.

Local Open Scope Q_scope.

Lemma Qlt_bool_false_iff a b : Qlt_bool a b = false <-> b <= a.
Proof.
  split; [apply Qlt_bool_false|].
  intros H. destruct (Qlt_bool a b) eqn:E; [|reflexivity].
  apply Qlt_bool_true in E. exfalso. apply (Qlt_not_le _ _ E H).
Qed.

Lemma confidence_before_asym (h : heap) x y :
  Qlt_bool (confidence_at h y) (confidence_at h x) = true ->
  Qlt_bool (confidence_at h x) (confidence_at h y) = false.
Proof.
  intros H. apply Qlt_bool_true in H. apply Qlt_bool_false_iff.
  apply Qlt_le_weak, H.
Qed.

Lemma confidence_before_neg_trans (h : heap) x y z :
  Qlt_bool (confidence_at h x) (confidence_at h y) = false ->
  Qlt_bool (confidence_at h y) (confidence_at h z) = false ->
  Qlt_bool (confidence_at h x) (confidence_at h z) = false.
Proof.
  rewrite !Qlt_bool_false_iff. intros H1 H2. eapply Qle_trans; eassumption.
Qed.

Lemma sort_by_confidence_sorted (h : heap) l :
  StronglySorted (fun a b => confidence_at h b <= confidence_at h a)
    (sort_by_confidence h l).
Proof.
  unfold sort_by_confidence.
  eapply PySortMore.StronglySorted_weaken;
    [|apply PySortFacts.sort_sorted].
  - intros x y. unfold PySort.not_after. apply Qlt_bool_false.
  - intros x y. apply confidence_before_asym.
  - intros x y z H1 H2. eapply confidence_before_neg_trans; eassumption.
Qed.

(** When the query has a keyword, the returned list is in descending
    order of the confidences that hybrid ranking has left in the
    dictionaries. *)
Theorem hybrid_search_descending_confidence query (h : heap) vector_results :
  keywords_of query <> [] ->
  StronglySorted
    (fun a b =>
       confidence_at (hybrid_search query h vector_results).1 b
       <= confidence_at (hybrid_search query h vector_results).1 a)
    (hybrid_search query h vector_results).2.
Proof.
  intros Hk. unfold hybrid_search.
  destruct (keywords_of query) as [|k ks]; [congruence|]. cbn [fst snd].
  apply sort_by_confidence_sorted.
Qed.

Lemma hybrid_search_descending_confidence_witness :
  keywords_of "Python programming" <> []
  /\ StronglySorted
       (fun a b =>
          confidence_at
            (hybrid_search "Python programming" (heap2 item_b item_a)
               [0%nat; 1%nat]).1 b
          <= confidence_at
               (hybrid_search "Python programming" (heap2 item_b item_a)
                  [0%nat; 1%nat]).1 a)
       (hybrid_search "Python programming" (heap2 item_b item_a)
          [0%nat; 1%nat]).2.
Proof.
  assert (H : keywords_of "Python programming" <> []) by discriminate.
  split; [exact H|].
  apply (hybrid_search_descending_confidence _ _ _ H).
Defined.

(** Results whose confidences are equal after hybrid ranking keep the
    order they had in the list given to it. *)
Theorem hybrid_search_ties_keep_order query (h : heap) vector_results c :
  List.filter
    (fun a =>
       Qeq_bool (confidence_at (hybrid_search query h vector_results).1 a) c)
    (hybrid_search query h vector_results).2
  = List.filter
      (fun a =>
         Qeq_bool (confidence_at (hybrid_search query h vector_results).1 a) c)
      vector_results.
Proof.
  unfold hybrid_search.
  destruct (keywords_of query) as [|k ks]; [reflexivity|]. cbn [fst snd].
  unfold sort_by_confidence. apply PySortMore.filter_sort_stable.
  intros x y Hx Hy. apply Qeq_bool_iff in Hx, Hy.
  apply Qlt_bool_false_iff. rewrite Hx, Hy. apply Qle_refl.
Qed.

Lemma set_confidence_eta r : set_confidence (confidence r) r = r.
Proof. destruct r; reflexivity. Qed.

Lemma rescore_fields keywords r :
  rescore keywords r = set_confidence (confidence (rescore keywords r)) r.
Proof.
  unfold rescore.
  destruct (0 <? keyword_matches keywords (lower (content r)))%nat;
    [reflexivity|symmetry; apply set_confidence_eta].
Qed.

Lemma score_all_fields keywords vector_results : forall (h : heap) a,
  (h !! a = None -> score_all keywords h vector_results !! a = None)
  /\ (forall r, h !! a = Some r ->
        exists r', score_all keywords h vector_results !! a = Some r'
                   /\ r' = set_confidence (confidence r') r).
Proof.
  unfold score_all.
  induction vector_results as [|x l IH]; intros h a; cbn [foldl].
  - split; [auto|]. intros r Hr. exists r.
    split; [exact Hr|symmetry; apply set_confidence_eta].
  - destruct (IH (alter (rescore keywords) x h) a) as [IH1 IH2].
    destruct (decide (x = a)) as [->|Hne].
    + split.
      * intros Hn. apply IH1. by rewrite lookup_alter_eq, Hn.
      * intros r Hr.
        destruct (IH2 (rescore keywords r)) as (r' & E & Hr');
          [by rewrite lookup_alter_eq, Hr|].
        exists r'. split; [exact E|].
        rewrite Hr' at 1. rewrite (rescore_fields keywords r). reflexivity.
    + split.
      * intros Hn. apply IH1. by rewrite lookup_alter_ne.
      * intros r Hr. apply IH2. by rewrite lookup_alter_ne.
Qed.

(** Hybrid ranking creates and deletes no dictionary, writes no key but
    ["confidence"], and leaves alone the dictionaries that the list does
    not name. *)
Theorem hybrid_search_changes_confidence_only query (h : heap)
  vector_results a :
  (h !! a = None -> (hybrid_search query h vector_results).1 !! a = None)
  /\ (forall r, h !! a = Some r ->
        exists r',
          (hybrid_search query h vector_results).1 !! a = Some r'
          /\ r' = set_confidence (confidence r') r)
  /\ (a ∉ vector_results ->
      (hybrid_search query h vector_results).1 !! a = h !! a).
Proof.
  rewrite hybrid_search_heap. destruct (keywords_of query) as [|k ks].
  - split; [auto|]. split; [|auto]. intros r Hr. exists r.
    split; [exact Hr|symmetry; apply set_confidence_eta].
  - destruct (score_all_fields (k :: ks) vector_results h a) as [H1 H2].
    split; [exact H1|]. split; [exact H2|]. apply score_all_other.
Qed.

Lemma hybrid_search_changes_confidence_only_witness :
  heap2 item_a item_b !! 1%nat = Some item_b
  /\ (1%nat ∉ [0%nat])
  /\ (hybrid_search "JavaScript" (heap2 item_a item_b) [0%nat]).1 !! 1%nat
     = Some item_b.
Proof.
  assert (H : 1%nat ∉ [0%nat]) by (apply (bool_decide_unpack _); reflexivity).
  split; [reflexivity|]. split; [exact H|].
  rewrite (proj2 (proj2 (hybrid_search_changes_confidence_only "JavaScript"
                           (heap2 item_a item_b) [0%nat] 1%nat)) H).
  reflexivity.
Defined.

Lemma lower_char_idem c : lower_char (lower_char c) = lower_char c.
Proof. destruct c as [[] [] [] [] [] [] [] []]; reflexivity. Qed.

Lemma lower_idem s : lower (lower s) = lower s.
Proof.
  induction s as [|c s IH]; [reflexivity|].
  cbn [lower]. rewrite lower_char_idem, IH. reflexivity.
Qed.

(** Hybrid ranking ignores the letter case of the query and of the
    contents: the lower-cased query gives the same result, and two
    dictionaries with the same confidence whose contents differ in case
    only are rescored to the same confidence. *)
Theorem hybrid_search_ignores_case :
  (forall query (h : heap) vector_results,
      hybrid_search (lower query) h vector_results
      = hybrid_search query h vector_results)
  /\ (forall keywords r1 r2,
         lower (content r1) = lower (content r2) ->
         confidence r1 = confidence r2 ->
         confidence (rescore keywords r1) = confidence (rescore keywords r2)).
Proof.
  split.
  - intros query h vector_results. unfold hybrid_search, keywords_of.
    rewrite lower_idem. reflexivity.
  - intros keywords r1 r2 Hc Hq. unfold rescore. rewrite Hc.
    destruct (0 <? keyword_matches keywords (lower (content r2)))%nat;
      cbn [confidence set_confidence]; rewrite Hq; reflexivity.
Qed.

Lemma hybrid_search_ignores_case_witness :
  confidence
    (rescore ["python"]
       (text_result "doc1_text_0" "PYTHON IS GREAT." (Some 1%Z) 0.5))
  = confidence
      (rescore ["python"]
         (text_result "doc1_text_1" "python is great." None 0.5)).
Proof.
  apply (proj2 hybrid_search_ignores_case); reflexivity.
Defined.

(** *** Distance to confidence *)

Lemma py_min_mono_l a a' b : a <= a' -> py_min a b <= py_min a' b.
Proof.
  intros H. apply py_min_glb.
  - eapply Qle_trans; [apply py_min_le_l|exact H].
  - apply py_min_le_r.
Qed.

Lemma confidence_of_distance_le_of_le d1 d2 :
  d1 <= d2 -> confidence_of_distance d2 <= confidence_of_distance d1.
Proof.
  intros H. unfold confidence_of_distance.
  assert (py_min (d1 / 2) 0.95 <= py_min (d2 / 2) 0.95) as Hm.
  { apply py_min_mono_l. unfold Qdiv.
    apply Qmult_le_compat_r; [exact H|discriminate]. }
  revert Hm. generalize (py_min (d1 / 2) 0.95), (py_min (d2 / 2) 0.95).
  intros m1 m2 Hm. lra.
Qed.

(** The confidence computed by [search_vectors] does not grow with the
    distance; it is at most 1 for a distance that is not negative and at
    least 1 for one that is not positive; from distance 1.9 on it no
    longer changes; the value it has there is its smallest, and it is
    positive; it is 1 at distance 0 and 0.5 at distance 1, and between
    the distances 0 and 1.9 it is 1 - distance / 2 up to 10^-15. Each of
    these statements is kept by the rounding of the code's floating-point
    operations: they are monotone, exact at 0 and 1, and off by less than
    10^-15 elsewhere. *)
Theorem confidence_of_distance_antitone :
  (forall d1 d2,
      d1 <= d2 -> confidence_of_distance d2 <= confidence_of_distance d1)
  /\ (forall d, 0 <= d -> confidence_of_distance d <= 1)
  /\ (forall d, d <= 0 -> 1 <= confidence_of_distance d)
  /\ (forall d,
        1.9 <= d -> confidence_of_distance d == confidence_of_distance 1.9)
  /\ (forall d,
        confidence_of_distance 1.9 <= confidence_of_distance d
        /\ 0 < confidence_of_distance d)
  /\ confidence_of_distance 0 == 1
  /\ confidence_of_distance 1 == 0.5
  /\ (forall d,
        0 <= d -> d <= 1.9 ->
        1 - d / 2 - 0.000000000000001 <= confidence_of_distance d
        /\ confidence_of_distance d <= 1 - d / 2 + 0.000000000000001).
Proof.
  assert (Hfloor : confidence_of_distance 1.9 == 0.05) by reflexivity.
  split; [apply confidence_of_distance_le_of_le|].
  split; [|split; [|split; [|split; [|split; [|split]]]]];
    [| | | |reflexivity|reflexivity|].
  - intros d H. unfold confidence_of_distance.
    assert (0 <= py_min (d / 2) 0.95) as Hm.
    { apply py_min_glb; [|discriminate].
      apply Qle_shift_div_l; [reflexivity|]. lra. }
    revert Hm. generalize (py_min (d / 2) 0.95). intros m Hm. lra.
  - intros d H. unfold confidence_of_distance.
    pose proof (py_min_le_l (d / 2) 0.95) as Hm.
    assert (d / 2 <= 0) as Hd
      by (apply Qle_shift_div_r; [reflexivity|lra]).
    revert Hm Hd. generalize (d / 2), (py_min (d / 2) 0.95).
    intros x m Hm Hd. lra.
  - intros d H. rewrite Hfloor. unfold confidence_of_distance.
    assert (0.95 <= py_min (d / 2) 0.95) as Hm.
    { apply py_min_glb; [|apply Qle_refl].
      apply Qle_shift_div_l; [reflexivity|]. lra. }
    pose proof (py_min_le_r (d / 2) 0.95) as Hm'.
    revert Hm Hm'. generalize (py_min (d / 2) 0.95). intros m Hm Hm'. lra.
  - intros d. rewrite Hfloor. unfold confidence_of_distance.
    pose proof (py_min_le_r (d / 2) 0.95) as Hm.
    revert Hm. generalize (py_min (d / 2) 0.95). intros m Hm.
    split; lra.
  - intros d H0 H. unfold confidence_of_distance.
    assert (d / 2 <= 0.95) as Hd
      by (apply Qle_shift_div_r; [reflexivity|lra]).
    pose proof (py_min_le_l (d / 2) 0.95) as Hm.
    assert (d / 2 <= py_min (d / 2) 0.95) as Hm'
      by (apply py_min_glb; [apply Qle_refl|exact Hd]).
    revert Hm Hm'. generalize (py_min (d / 2) 0.95), (d / 2).
    intros m x Hm Hm'. split; lra.
Qed.

Lemma confidence_of_distance_antitone_witness :
  0.4 <= 1.2
  /\ confidence_of_distance 1.2 <= confidence_of_distance 0.4
  /\ confidence_of_distance 2 == confidence_of_distance 1.9
  /\ 1 <= confidence_of_distance (-0.5)
  /\ confidence_of_distance 0.4 <= 1 - 0.4 / 2 + 0.000000000000001.
Proof.
  assert (H : 0.4 <= 1.2) by discriminate.
  assert (H2 : 1.9 <= 2) by discriminate.
  assert (H3 : -0.5 <= 0) by discriminate.
  assert (H4 : 0 <= 0.4) by discriminate.
  assert (H5 : 0.4 <= 1.9) by discriminate.
  split; [exact H|]. split; [|split; [|split]]; cycle 3.
  { apply (proj2 (proj2 (proj2 (proj2 (proj2 (proj2 (proj2
             confidence_of_distance_antitone)))))) _ H4 H5). }
  - apply (proj1 confidence_of_distance_antitone _ _ H).
  - apply (proj1 (proj2 (proj2 (proj2 confidence_of_distance_antitone)))
             _ H2).
  - apply (proj1 (proj2 (proj2 confidence_of_distance_antitone)) _ H3).
Defined.

(** *** The size of the boost *)

Lemma keyword_boost_capped m : (4 <= m)%nat -> keyword_boost m = 0.2.
Proof.
  intros H. unfold keyword_boost, py_min.
  destruct (Qlt_bool (0.05 * inject_Z (Z.of_nat m)) 0.2) eqn:E; [|reflexivity].
  apply Qlt_bool_true in E. exfalso.
  assert (inject_Z 4 <= inject_Z (Z.of_nat m)) as Hm
    by (rewrite <- Zle_Qle; lia).
  revert E Hm. generalize (inject_Z (Z.of_nat m)). intros x E Hm.
  change (inject_Z 4) with 4 in Hm. lra.
Qed.

Lemma keyword_boost_mono m m' :
  (m <= m')%nat -> keyword_boost m <= keyword_boost m'.
Proof.
  intros H. unfold keyword_boost. apply py_min_glb; [apply py_min_le_l|].
  eapply Qle_trans; [apply py_min_le_r|].
  apply Qmult_le_l; [reflexivity|]. rewrite <- Zle_Qle. lia.
Qed.

(** The boost grows with the number of matching keywords up to four and
    is 0.2 from four on; rescoring never adds more than 0.2 to a
    confidence. *)
Theorem keyword_boost_saturates :
  (forall m m', (m <= m')%nat -> keyword_boost m <= keyword_boost m')
  /\ (forall m, (m <= 4)%nat ->
        keyword_boost m == 0.05 * inject_Z (Z.of_nat m))
  /\ (forall m, (4 <= m)%nat -> keyword_boost m = 0.2)
  /\ (forall keywords r,
        confidence (rescore keywords r) <= confidence r + 0.2).
Proof.
  split; [apply keyword_boost_mono|].
  split; [|split; [apply keyword_boost_capped|]].
  - intros m H.
    destruct m as [|[|[|[|[|m]]]]]; [reflexivity..|lia].
  - intros keywords r. unfold rescore.
    destruct (0 <? keyword_matches keywords (lower (content r)))%nat;
      cbn [confidence set_confidence].
    + eapply Qle_trans; [apply py_min_le_r|].
      apply Qplus_le_r, keyword_boost_le.
    + rewrite <- (Qplus_0_r (confidence r)) at 1.
      apply Qplus_le_r. discriminate.
Qed.

Lemma keyword_boost_saturates_witness :
  (4 <= 7)%nat /\ keyword_boost 7 = 0.2 /\ keyword_boost 2 <= keyword_boost 7.
Proof.
  assert (H : (4 <= 7)%nat) by lia.
  assert (H' : (2 <= 7)%nat) by lia.
  split; [exact H|]. split.
  - apply (proj1 (proj2 (proj2 keyword_boost_saturates)) _ H).
  - apply (proj1 keyword_boost_saturates _ _ H').
Defined.

End RankerMore.

(** ** Search filter and retrieval pipeline *)

Module PipelineFacts.
Import PyStr Retriever VectorStore Pipeline Examples RankerFacts.

(** A chunk passes the filter of [search_vectors] exactly when its document
    is among the requested ones, if any is requested, and it is not an
    image, if images are excluded; an empty list of document ids requests
    nothing and so searches every document. *)
Theorem query_filter_meaning (m : metadata) document_ids include_images :
  passes m (query_filter document_ids include_images)
  <-> (match document_ids with
       | Some (id :: ids) => m_document_id m ∈ id :: ids
       | _ => True
       end)
      /\ (include_images = false -> m_chunk_type m <> Some "image").
Proof.
  unfold query_filter.
  destruct document_ids as [[|id ids]|], include_images; cbn;
    intuition congruence.
Qed.

Lemma query_filter_meaning_witness :
  passes Examples2.text_metadata (query_filter (Some ["doc0"; "doc1"]) false)
  /\ ~ passes Examples2.text_metadata (query_filter (Some ["doc2"]) true).
Proof.
  split.
  - apply (proj2 (query_filter_meaning _ _ _)). split.
    + apply list_elem_of_further, list_elem_of_here.
    + intros _. discriminate.
  - intros H. apply (proj1 (query_filter_meaning _ _ _)) in H.
    destruct H as [H _]. apply list_elem_of_singleton in H. discriminate.
Defined.

Lemma retrieve_context_heap names query search_results :
  (retrieve_context names query search_results).1
  = (hybrid_search query (map_seq 0 (map (enhance names) search_results))
       (seq 0 (length (map (enhance names) search_results)))).1.
Proof.
  unfold retrieve_context.
  destruct (map (enhance names) search_results) as [|r rs] eqn:E.
  - rewrite hybrid_search_heap. destruct (keywords_of query); reflexivity.
  - destruct query as [|c q]; [|reflexivity].
    rewrite hybrid_search_heap. reflexivity.
Qed.

(** Every hit of the vector search comes back as one dictionary of its
    own: it carries the id, document and content of the hit, and its
    confidence is the confidence of the hit rescored once for the keywords
    of the query. The returned list names each of these dictionaries
    exactly once. *)
Theorem retrieve_context_rescores_each_hit names query search_results :
  (forall i hit,
      search_results !! i = Some hit ->
      (retrieve_context names query search_results).1 !! i
      = Some (rescore (keywords_of query) (enhance names hit)))
  /\ (retrieve_context names query search_results).2
     ≡ₚ seq 0 (length search_results).
Proof.
  split.
  - intros i hit Hi. rewrite retrieve_context_heap, hybrid_search_heap.
    assert (Hl : (map_seq 0 (map (enhance names) search_results) : heap) !! i
                 = Some (enhance names hit)).
    { rewrite lookup_map_seq_0, list_lookup_fmap, Hi. reflexivity. }
    destruct (keywords_of query) as [|k ks]; [exact Hl|].
    apply score_all_once; [apply NoDup_seq| |exact Hl].
    apply elem_of_seq. apply lookup_lt_Some in Hi.
    rewrite length_map. lia.
  - unfold retrieve_context. rewrite <- (length_map (enhance names)).
    destruct (map (enhance names) search_results) as [|r rs]; [reflexivity|].
    destruct (truthy query); [apply hybrid_search_perm|reflexivity].
Qed.

Lemma retrieve_context_rescores_each_hit_witness :
  exists r,
    (retrieve_context (fun _ => Some (Some "manual.pdf")) "Python tips"
       [{| hit_id := "doc1_text_0";
           hit_metadata :=
             {| m_document_id := "doc1"; m_chunk_type := Some "text";
                m_content := Some "Python is great.";
                m_page_number := Some 1%Z;
                m_image_path := None; m_language := None |};
           hit_confidence := confidence_of_distance 0.4 |}]).1 !! 0%nat
    = Some r
    /\ (confidence r == 0.85)%Q.
Proof.
  eexists. split.
  - apply (proj1 (retrieve_context_rescores_each_hit _ _ _) 0%nat).
    reflexivity.
  - reflexivity.
Defined.

End PipelineFacts.

(** ** Context assembler: nothing lost in grouping, the sentinel *)

Module AssemblerMore.
Import PyStr Retriever Examples AssemblerFacts.

Lemma concat_append_to_group doc r g :
  concat (append_to_group doc r g).*2 ≡ₚ concat g.*2 ++ [r].
Proof.
  induction g as [|[k rs] g IH]; [reflexivity|].
  cbn [append_to_group]. destruct (String.eqb k doc); cbn.
  - rewrite <- !app_assoc. apply Permutation_app_head, Permutation_app_comm.
  - rewrite IH, app_assoc. reflexivity.
Qed.

Lemma concat_foldl_group_step results : forall g,
  concat (foldl group_step g results).*2
  ≡ₚ concat g.*2
     ++ List.filter (fun r => truthy (document_id r)) results.
Proof.
  induction results as [|r results IH]; intros g; cbn [foldl List.filter].
  - rewrite app_nil_r. reflexivity.
  - rewrite IH. unfold group_step.
    destruct (truthy (document_id r)); [|reflexivity].
    rewrite concat_append_to_group, <- app_assoc. reflexivity.
Qed.

(** Grouping loses and repeats nothing: the groups together hold exactly
    the results that have a document id, each once, and no two groups
    have the same document id. *)
Theorem group_results_by_document_partition results :
  concat (group_results_by_document results).*2
  ≡ₚ List.filter (fun r => truthy (document_id r)) results
  /\ NoDup (group_results_by_document results).*1.
Proof.
  split.
  - unfold group_results_by_document. rewrite concat_foldl_group_step.
    reflexivity.
  - apply NoDup_keys_foldl. constructor.
Qed.

Lemma foldl_group_step_no_document results :
  Forall (fun r => document_id r = EmptyString) results ->
  foldl group_step [] results = [].
Proof.
  induction 1 as [|r results Hr _ IH]; [reflexivity|].
  cbn [foldl]. unfold group_step at 2. rewrite Hr. exact IH.
Qed.

(** The sentinel text is returned for the empty result list and for no
    other; a list whose results all lack a document id gives the query
    line alone, without any evidence. *)
Theorem build_context_for_llm_sentinel results query :
  (build_context_for_llm results query = "No relevant information found."
   <-> results = [])
  /\ (results <> [] ->
      Forall (fun r => document_id r = EmptyString) results ->
      build_context_for_llm results query = "Query: " +:+ query +:+ nlnl).
Proof.
  split; [split|].
  - destruct results as [|r rs]; [reflexivity|].
    unfold build_context_for_llm, context_parts, join.
    cbn [app].
    destruct (concat _) as [|x l]; cbn [String.concat]; discriminate.
  - intros ->. reflexivity.
  - intros Hne Hall. destruct results as [|r rs]; [congruence|].
    unfold build_context_for_llm, context_parts, group_results_by_document.
    rewrite (foldl_group_step_no_document _ Hall). reflexivity.
Qed.

Lemma build_context_for_llm_sentinel_witness :
  build_context_for_llm
    [{| chunk_id := "c0"; document_id := EmptyString;
        document_name := "Unknown Document"; chunk_type := "text";
        content := "orphan"; page_number := None; confidence := 0.5;
        image_path := None; language := None |}] "q"
  = "Query: q" +:+ nlnl.
Proof.
  apply (proj2 (build_context_for_llm_sentinel _ "q")).
  - discriminate.
  - repeat constructor.
Defined.

End AssemblerMore.

(** ** Citation extractor: what the citations are *)

Module LlmMore.
Import PyStr Py Llm Examples LlmFacts Evidence.

Lemma map_is_fmap {A B} (f : A -> B) l : map f l = f <$> l.
Proof. reflexivity. Qed.

Lemma same_evidence_key citation c :
  same_evidence citation c = true <-> evidence_key c = evidence_key citation.
Proof.
  unfold same_evidence, evidence_key.
  rewrite andb_true_iff, String.eqb_eq, bool_decide_eq_true.
  split; [intros [-> ->]; reflexivity|]. intros [= -> ->]. auto.
Qed.

Lemma existsb_same_evidence c seen :
  existsb (same_evidence c) seen = true
  <-> evidence_key c ∈ map evidence_key seen.
Proof.
  rewrite existsb_exists, map_is_fmap, list_elem_of_fmap. split.
  - intros (x & Hx & E). apply same_evidence_key in E.
    exists x. split; [congruence|by apply list_elem_of_In].
  - intros (x & E & Hx). exists x.
    split; [by apply list_elem_of_In|]. apply same_evidence_key. congruence.
Qed.

Lemma first_occurrences_spec l : forall seen,
  NoDup (map evidence_key (Spec.first_occurrences seen l))
  /\ (forall c, c ∈ Spec.first_occurrences seen l ->
        c ∈ l /\ evidence_key c ∉ map evidence_key seen).
Proof.
  induction l as [|c l IH]; intros seen; cbn [Spec.first_occurrences].
  - split; [constructor|]. intros c H. inversion H.
  - destruct (existsb (same_evidence c) seen) eqn:E.
    + destruct (IH seen) as [H1 H2]. split; [exact H1|].
      intros x Hx. destruct (H2 x Hx). split; [by right|assumption].
    + destruct (IH (seen ++ [c])) as [H1 H2].
      assert (Hc : evidence_key c ∉ map evidence_key seen).
      { intros H. apply existsb_same_evidence in H. congruence. }
      split.
      * cbn [map]. apply NoDup_cons. split; [|exact H1].
        intros H. rewrite map_is_fmap in H.
        apply list_elem_of_fmap in H as (x & Ex & Hx).
        destruct (H2 x Hx) as [_ Hn]. apply Hn.
        rewrite map_app. apply elem_of_app. right. cbn [map].
        rewrite Ex. by left.
      * intros x Hx. apply elem_of_cons in Hx as [->|Hx]; [split; [by left|exact Hc]|].
        destruct (H2 x Hx) as [Hl Hn]. split; [by right|].
        intros H. apply Hn. rewrite map_app. apply elem_of_app. by left.
Qed.

Lemma resolve_elem_of context m item :
  resolve context m = Some item -> item ∈ context.
Proof.
  unfold resolve. destruct (py_int m) as [n|e]; [|discriminate].
  destruct (_ && _); [|discriminate].
  apply list_elem_of_lookup_2.
Qed.

Lemma resolve_nil m : resolve [] m = None.
Proof.
  unfold resolve. destruct (py_int m) as [n|e]; [|reflexivity].
  change (Z.of_nat (length (@nil Retriever.result))) with 0%Z.
  destruct (Z.leb_spec 1 n), (Z.leb_spec n 0); cbn [andb];
    try reflexivity; lia.
Qed.

(** The citation list is empty exactly when the result list is empty,
    whatever the answer says; the answer text comes back as it was given. *)
Theorem citations_empty_iff_context_empty response context :
  exists citations,
    extract_citations response context = Returns (response, citations)
    /\ (citations = [] <-> context = []).
Proof.
  unfold extract_citations. rewrite cite_all_first_occurrences.
  destruct context as [|top rest].
  - exists []. split; [|split; reflexivity].
    replace (omap (resolve []) (findall_doc 0 response)) with (@nil Retriever.result);
      [reflexivity|].
    induction (findall_doc 0 response) as [|m ms IH]; [reflexivity|].
    cbn [omap list_omap]. rewrite resolve_nil. exact IH.
  - destruct (Spec.first_occurrences [] _) as [|c cs].
    + eexists. split; [reflexivity|]. split; discriminate.
    + eexists. split; [reflexivity|]. split; discriminate.
Qed.

Lemma citations_empty_iff_context_empty_witness :
  exists citations,
    extract_citations "No marker here." [Examples.item_a]
    = Returns ("No marker here.", citations)
    /\ citations <> [].
Proof.
  destruct (citations_empty_iff_context_empty "No marker here."
              [Examples.item_a]) as (citations & E & H).
  exists citations. split; [exact E|].
  intros Hc. apply H in Hc. discriminate.
Defined.

(** Every citation is built from an item of the result list, no two
    citations have the same document id and text, and there are at most as
    many citations as results. *)
Theorem citations_come_from_context response context citations :
  extract_citations response context = Returns (response, citations) ->
  (forall c, c ∈ citations ->
     exists item, item ∈ context /\ c = make_citation item)
  /\ NoDup (map evidence_key citations)
  /\ (length citations <= length context)%nat.
Proof.
  unfold extract_citations. rewrite cite_all_first_occurrences.
  set (items := omap (resolve context) (findall_doc 0 response)).
  destruct (first_occurrences_spec (map make_citation items) []) as [Hnd Hin].
  assert (Hitems : forall item, item ∈ items -> item ∈ context).
  { intros item H. apply list_elem_of_omap in H as (m & _ & Hm).
    eapply resolve_elem_of, Hm. }
  assert (Hfrom : forall cs,
             (forall c, c ∈ cs -> exists item, item ∈ context /\ c = make_citation item) ->
             NoDup (map evidence_key cs) ->
             (length cs <= length context)%nat).
  { intros cs Hcs Hk. rewrite map_is_fmap in Hk. apply NoDup_fmap_1 in Hk.
    rewrite <- (length_map make_citation context).
    apply submseteq_length, NoDup_submseteq; [exact Hk|].
    intros c Hc. destruct (Hcs c Hc) as (item & Hi & ->).
    rewrite map_is_fmap. by apply list_elem_of_fmap_2. }
  assert (Hfo : forall c, c ∈ Spec.first_occurrences [] (map make_citation items) ->
                  exists item, item ∈ context /\ c = make_citation item).
  { intros c Hc. destruct (Hin c Hc) as [Hc' _]. rewrite map_is_fmap in Hc'.
    apply list_elem_of_fmap in Hc' as (item & -> & Hi). eauto. }
  destruct (Spec.first_occurrences [] (map make_citation items))
    as [|c cs] eqn:E.
  - destruct context as [|top rest]; intros [= <-].
    + split; [intros c H; inversion H|]. split; [constructor|cbn; lia].
    + assert (Hc : forall c, c ∈ [make_citation top] ->
                exists item, item ∈ top :: rest /\ c = make_citation item).
      { intros c Hc. apply list_elem_of_singleton in Hc as ->.
        exists top. split; [by left|reflexivity]. }
      split; [exact Hc|]. split; [apply NoDup_singleton|cbn; lia].
  - intros [= <-].
    split; [exact Hfo|]. split; [exact Hnd|]. apply Hfrom; assumption.
Qed.

Lemma citations_come_from_context_witness :
  extract_citations "See [DOC_2] and [DOC_2], also [DOC_1]." context3
  = Returns ("See [DOC_2] and [DOC_2], also [DOC_1].",
             [make_citation item_b; make_citation item_a])
  /\ NoDup (map evidence_key [make_citation item_b; make_citation item_a]).
Proof.
  assert (H : extract_citations "See [DOC_2] and [DOC_2], also [DOC_1]."
                context3
              = Returns ("See [DOC_2] and [DOC_2], also [DOC_1].",
                         [make_citation item_b; make_citation item_a]))
    by reflexivity.
  split; [exact H|].
  apply (proj1 (proj2 (citations_come_from_context _ _ _ H))).
Defined.

End LlmMore.

(** ** Answer generation: retries and the reply of the query route *)

Module GenerationFacts.
Import PyStr Py Generation Examples Examples2.

Lemma attach_images_effects fs context : forall w,
  calls (attach_images fs context w) = calls w
  /\ slept (attach_images fs context w) = slept w.
Proof.
  induction context as [|item rest IH]; intros w; [auto|].
  cbn [attach_images].
  destruct (Retriever.image_path item) as [path|]; [|apply IH].
  destruct (_ && _); [|apply IH].
  destruct (read_file fs path) as [e|data]; [|apply IH].
  destruct (IH (print ("Error processing image " +:+ path +:+ ": " +:+ e) w))
    as [H1 H2].
  rewrite H1, H2. auto.
Qed.

(** [generate_text_response] always returns a text. It calls the client
    until a call succeeds, three times at most, sleeping one second after
    each failure but the third; it returns the text of the first success,
    and after three failures the apology with the message of the third. *)
Theorem generate_text_response_retries (c : client) (w : world) :
  exists text w',
    generate_text_response c w = (Some text, w')
    /\ (calls w < calls w' <= calls w + 3)%nat
    /\ (slept w' + calls w + 1 = slept w + calls w')%nat
    /\ (forall k content,
           (k < 3)%nat -> c (calls w + k)%nat = Answer content ->
           (forall j, (j < k)%nat ->
                      exists e, c (calls w + j)%nat = Failure e) ->
           text = content /\ calls w' = (calls w + k + 1)%nat)
    /\ (forall e0 e1 e2,
           c (calls w) = Failure e0 -> c (calls w + 1)%nat = Failure e1 ->
           c (calls w + 2)%nat = Failure e2 ->
           text = apology e2 /\ calls w' = (calls w + 3)%nat).
Proof.
  unfold generate_text_response. cbn [attempts Nat.sub Nat.eqb calls called
    print sleep1 slept].
  replace (S (calls w)) with (calls w + 1)%nat by lia.
  replace (S (calls w + 1)) with (calls w + 2)%nat by lia.
  destruct (c (calls w)) as [a0|e0] eqn:E0.
  { do 2 eexists. split; [reflexivity|]. cbn. split; [lia|]. split; [lia|].
    split; [|discriminate].
    intros k content Hk Hc Hf. destruct k as [|k].
    - rewrite Nat.add_0_r, E0 in Hc. injection Hc as ->. split; [auto|lia].
    - destruct (Hf 0%nat) as [e He]; [lia|].
      rewrite Nat.add_0_r, E0 in He. discriminate. }
  destruct (c (calls w + 1)%nat) as [a1|e1] eqn:E1.
  { do 2 eexists. split; [reflexivity|]. cbn. split; [lia|]. split; [lia|].
    split; [|discriminate].
    intros k content Hk Hc Hf. destruct k as [|[|k]].
    - rewrite Nat.add_0_r, E0 in Hc. discriminate.
    - rewrite E1 in Hc. injection Hc as ->. split; [auto|lia].
    - destruct (Hf 1%nat) as [e He]; [lia|]. rewrite E1 in He. discriminate. }
  destruct (c (calls w + 2)%nat) as [a2|e2] eqn:E2.
  { do 2 eexists. split; [reflexivity|]. cbn. split; [lia|]. split; [lia|].
    split; [|discriminate].
    intros k content Hk Hc Hf. destruct k as [|[|[|k]]]; [| | |lia].
    - rewrite Nat.add_0_r, E0 in Hc. discriminate.
    - rewrite E1 in Hc. discriminate.
    - rewrite E2 in Hc. injection Hc as ->. split; [auto|lia]. }
  do 2 eexists. split; [reflexivity|]. cbn. split; [lia|]. split; [lia|].
  split.
  - intros k content Hk Hc Hf. destruct k as [|[|[|k]]]; [| | |lia].
    + rewrite Nat.add_0_r, E0 in Hc. discriminate.
    + rewrite E1 in Hc. discriminate.
    + rewrite E2 in Hc. discriminate.
  - intros x0 x1 x2 _ _ [= <-]. split; [reflexivity|lia].
Qed.

Lemma generate_text_response_retries_witness :
  exists text w',
    generate_text_response flaky_client fresh_world = (Some text, w')
    /\ text = "Python is great [DOC_1]."
    /\ calls w' = 3%nat.
Proof.
  destruct (generate_text_response_retries flaky_client fresh_world)
    as (text & w' & E & _ & _ & H & _).
  exists text, w'. split; [exact E|].
  apply (H 2%nat "Python is great [DOC_1]."); [lia|reflexivity|].
  intros j Hj. destruct j as [|[|j]]; [eexists; reflexivity..|lia].
Defined.

Lemma generate_text_response_returns (c : client) (w : world) :
  exists text w',
    generate_text_response c w = (Some text, w')
    /\ (calls w < calls w' <= calls w + 3)%nat.
Proof.
  unfold generate_text_response. cbn [attempts Nat.sub Nat.eqb].
  destruct (c (calls w)); [do 2 eexists; split; [reflexivity|cbn; lia]|].
  cbn [calls sleep1 print called].
  destruct (c (S (calls w))); [do 2 eexists; split; [reflexivity|cbn; lia]|].
  destruct (c (S (S (calls w))));
    do 2 eexists; (split; [reflexivity|cbn; lia]).
Qed.

(** The query route always returns an answer with its citations. For an
    empty context it returns the fixed answer without calling the client;
    otherwise it calls the client at least once and three times at most,
    once only on the vision path, and returns at least one citation, also
    when the answer is the apology for a failed generation. *)
Theorem query_route_reply LLM_MODEL (c : client) (fs : files) query context
  (w : world) :
  exists answer citations w',
    query_route LLM_MODEL c fs query context w
    = (Returns (answer, citations), w')
    /\ (citations = [] <-> context = [])
    /\ (calls w <= calls w' <= calls w + 3)%nat
    /\ (context <> [] -> (calls w < calls w')%nat)
    /\ (context = [] ->
        w' = w /\ answer = "No relevant information found for your query.")
    /\ (has_images context = true ->
        String.prefix "gpt-4-vision" LLM_MODEL = true ->
        calls w' = S (calls w)).
Proof.
  destruct context as [|top rest].
  { exists "No relevant information found for your query.", [], w.
    split; [reflexivity|]. split; [split; reflexivity|]. split; [lia|].
    split; [congruence|]. split; [auto|discriminate]. }
  assert (Hcite : forall text,
             exists citations,
               Llm.extract_citations text (top :: rest)
               = Returns (text, citations)
               /\ (citations = [] <-> top :: rest = [])).
  { intros text. unfold Llm.extract_citations.
    rewrite LlmFacts.cite_all_first_occurrences.
    destruct (Spec.first_occurrences [] _);
      eexists; (split; [reflexivity|split; discriminate]). }
  unfold query_route, generate_response.
  destruct (has_images (top :: rest) && String.prefix "gpt-4-vision" LLM_MODEL)
    eqn:Path.
  - unfold generate_multimodal_response.
    destruct (attach_images_effects fs (top :: rest) w) as [Hc _].
    destruct (c (calls (attach_images fs (top :: rest) w))) as [text|e].
    + destruct (Hcite text) as (cs & E & Hcs). rewrite E.
      do 3 eexists. split; [reflexivity|]. split; [exact Hcs|].
      cbn [calls called]. rewrite Hc. split; [lia|]. split; [lia|].
      split; [discriminate|auto].
    + destruct (Hcite (apology e)) as (cs & E & Hcs). rewrite E.
      do 3 eexists. split; [reflexivity|]. split; [exact Hcs|].
      cbn [calls called print]. rewrite Hc. split; [lia|]. split; [lia|].
      split; [discriminate|auto].
  - destruct (generate_text_response_returns c w) as (text & w' & E & Hw).
    rewrite E. destruct (Hcite text) as (cs & Ec & Hcs). rewrite Ec.
    do 3 eexists. split; [reflexivity|]. split; [exact Hcs|].
    split; [lia|]. split; [lia|]. split; [discriminate|].
    intros H1 H2. rewrite H1, H2 in Path. discriminate.
Qed.

Lemma query_route_reply_witness :
  has_images context5 = true
  /\ String.prefix "gpt-4-vision" "gpt-4-vision-preview" = true
  /\ context5 <> []
  /\ exists answer citations w',
      query_route "gpt-4-vision-preview" failing_client no_files
        "What is shown?" context5 fresh_world
      = (Returns (answer, citations), w')
      /\ calls w' = 1%nat
      /\ (calls fresh_world < calls w')%nat.
Proof.
  assert (H1 : has_images context5 = true) by reflexivity.
  assert (H2 : String.prefix "gpt-4-vision" "gpt-4-vision-preview" = true)
    by reflexivity.
  assert (H3 : context5 <> []) by discriminate.
  split; [exact H1|]. split; [exact H2|]. split; [exact H3|].
  destruct (query_route_reply "gpt-4-vision-preview" failing_client no_files
              "What is shown?" context5 fresh_world)
    as (answer & citations & w' & E & _ & _ & Hpos & _ & H).
  exists answer, citations, w'. split; [exact E|].
  split; [apply (H H1 H2)|apply (Hpos H3)].
Defined.

End GenerationFacts.

(** ** Chunk records of a document *)

Module DocumentProcessorFacts.
Import PyStr VectorStore DocumentProcessor.

Local Arguments String.append !_ _ : simpl nomatch.













End DocumentProcessorFacts.

(** ** Retrieval pipeline: order of the results *)

Module PipelineOrder.
Import PyStr Retriever VectorStore Pipeline RankerFacts RankerMore Examples2.

Local Open Scope Q_scope.

Lemma StronglySorted_lookup_lt {A} (R : A -> A -> Prop) l :
  StronglySorted R l ->
  forall i j x y,
    (i < j)%nat -> l !! i = Some x -> l !! j = Some y -> R x y.
Proof.
  induction 1 as [|a l Hl IH Ha]; intros i j x y Hij Hi Hj;
    [inversion Hi|].
  destruct j as [|j]; [lia|]. cbn in Hj. destruct i as [|i].
  - injection Hi as <-. rewrite Forall_forall in Ha.
    apply Ha. eapply list_elem_of_lookup_2, Hj.
  - cbn in Hi. eapply IH; [|exact Hi|exact Hj]. lia.
Qed.

Lemma StronglySorted_seq (S : nat -> nat -> Prop) n : forall start,
  (forall i j, (start <= i < j)%nat -> (j < start + n)%nat -> S i j) ->
  StronglySorted S (seq start n).
Proof.
  induction n as [|n IH]; intros start H; cbn [seq]; constructor.
  - apply IH. intros i j Hi Hj. apply H; lia.
  - apply Forall_forall. intros j Hj. apply elem_of_seq in Hj.
    apply H; lia.
Qed.

Lemma confidence_at_enhanced names rows i row :
  rows !! i = Some row ->
  confidence_at
    (map_seq 0 (map (enhance names) (processed_results rows))) i
  = confidence_of_distance row.2.
Proof.
  intros H. unfold confidence_at, processed_results.
  rewrite lookup_map_seq_0, !list_lookup_fmap, H.
  reflexivity.
Qed.

Lemma retrieve_context_cases names query hits :
  retrieve_context names query hits
  = (map_seq 0 (map (enhance names) hits),
     seq 0 (length (map (enhance names) hits)))
  \/ exists k ks,
       keywords_of query = k :: ks
       /\ retrieve_context names query hits
          = (score_all (k :: ks) (map_seq 0 (map (enhance names) hits))
               (seq 0 (length (map (enhance names) hits))),
             sort_by_confidence
               (score_all (k :: ks) (map_seq 0 (map (enhance names) hits))
                  (seq 0 (length (map (enhance names) hits))))
               (seq 0 (length (map (enhance names) hits)))).
Proof.
  unfold retrieve_context.
  destruct (map (enhance names) hits) as [|r rs]; [by left|].
  destruct (truthy query); [|by left].
  unfold hybrid_search. destruct (keywords_of query) as [|k ks]; [by left|].
  right. exists k, ks. split; reflexivity.
Qed.

(** If the index returns its rows by ascending distance, then
    [retrieve_context] returns the results by descending confidence,
    whether the query has keywords or not. *)
Theorem retrieve_context_descending_confidence names query rows :
  StronglySorted (fun row1 row2 => row1.2 <= row2.2) rows ->
  StronglySorted
    (fun a b =>
       confidence_at
         (retrieve_context names query (processed_results rows)).1 b
       <= confidence_at
            (retrieve_context names query (processed_results rows)).1 a)
    (retrieve_context names query (processed_results rows)).2.
Proof.
  intros Hrows.
  destruct (retrieve_context_cases names query (processed_results rows))
    as [E|(k & ks & _ & E)]; rewrite E; cbn [fst snd].
  - apply StronglySorted_seq. intros i j Hij Hj.
    rewrite !length_map in Hj. unfold processed_results in Hj.
    rewrite length_map in Hj.
    destruct (lookup_lt_is_Some_2 rows i) as [ri Hi]; [lia|].
    destruct (lookup_lt_is_Some_2 rows j) as [rj Hj']; [lia|].
    rewrite (confidence_at_enhanced names rows i ri Hi),
      (confidence_at_enhanced names rows j rj Hj').
    apply confidence_of_distance_le_of_le.
    apply (StronglySorted_lookup_lt _ _ Hrows i j); [lia|assumption..].
  - apply sort_by_confidence_sorted.
Qed.

Lemma retrieve_context_descending_confidence_witness :
  StronglySorted
    (fun a b =>
       confidence_at
         (retrieve_context (fun _ => None) "What?"
            (processed_results two_rows)).1 b
       <= confidence_at
            (retrieve_context (fun _ => None) "What?"
               (processed_results two_rows)).1 a)
    (retrieve_context (fun _ => None) "What?" (processed_results two_rows)).2.
Proof.
  apply retrieve_context_descending_confidence.
  unfold two_rows. repeat constructor; discriminate.
Defined.

End PipelineOrder.

(** ** Retrieval metrics *)

Module EvaluationFacts.
Import Retriever Evaluation RankerFacts.

Local Open Scope Q_scope.
#[local] Set Warnings "-clear-no-such-hyp".

Lemma size_list_to_set_le (l : list string) :
  (size (list_to_set l : gset string) <= length l)%nat.
Proof.
  induction l as [|x l IH]; [reflexivity|].
  cbn [list_to_set foldr length].
  destruct (decide (x ∈ (list_to_set l : gset string))) as [Hx|Hx].
  - replace ({[x]} ∪ list_to_set l) with (list_to_set l : gset string)
      by set_solver.
    lia.
  - rewrite size_union by set_solver. rewrite size_singleton. lia.
Qed.

Lemma size_list_to_set_eq_NoDup (l : list string) :
  size (list_to_set l : gset string) = length l -> NoDup l.
Proof.
  induction l as [|x l IH]; [constructor|].
  cbn [list_to_set foldr length]. intros H.
  pose proof (size_list_to_set_le l) as Hle.
  destruct (decide (x ∈ (list_to_set l : gset string))) as [Hx|Hx].
  - replace ({[x]} ∪ list_to_set l) with (list_to_set l : gset string) in H
      by set_solver.
    lia.
  - rewrite size_union, size_singleton in H by set_solver.
    apply NoDup_cons. split; [set_solver|]. apply IH. lia.
Qed.

Lemma true_positives_le_retrieved retrieved relevant :
  (true_positives retrieved relevant <= length retrieved)%nat.
Proof.
  unfold true_positives.
  etransitivity; [|apply size_list_to_set_le].
  apply subseteq_size. set_solver.
Qed.

Lemma true_positives_le_relevant retrieved relevant :
  (true_positives retrieved relevant <= length relevant)%nat.
Proof.
  unfold true_positives.
  etransitivity; [|apply size_list_to_set_le].
  apply subseteq_size. set_solver.
Qed.

Lemma true_positives_all retrieved relevant :
  true_positives retrieved relevant = length retrieved
  <-> NoDup retrieved /\ (forall x, x ∈ retrieved -> x ∈ relevant).
Proof.
  unfold true_positives. split.
  - intros H.
    pose proof (size_list_to_set_le retrieved) as H1.
    assert (size ((list_to_set retrieved : gset string)
                    ∩ list_to_set relevant)
            <= size (list_to_set retrieved : gset string))%nat as H2
      by (apply subseteq_size; set_solver).
    split; [apply size_list_to_set_eq_NoDup; lia|].
    assert ((list_to_set retrieved : gset string) ∩ list_to_set relevant
            ≡ list_to_set retrieved) as E.
    { apply set_subseteq_size_equiv; [set_solver|lia]. }
    intros x Hx. set_solver.
  - intros [Hnd Hsub].
    replace ((list_to_set retrieved : gset string) ∩ list_to_set relevant)
      with (list_to_set retrieved : gset string) by set_solver.
    apply size_list_to_set, Hnd.
Qed.

Lemma ratio_bounds a b : (0 < b)%nat -> (a <= b)%nat -> 0 <= ratio a b <= 1.
Proof.
  intros Hb Hab. unfold ratio.
  assert (0 < inject_Z (Z.of_nat b)) as Hpos.
  { rewrite <- (Zlt_Qlt 0). lia. }
  split.
  - apply Qle_shift_div_l; [exact Hpos|]. rewrite Qmult_0_l.
    rewrite <- (Zle_Qle 0). lia.
  - apply Qle_shift_div_r; [exact Hpos|]. rewrite Qmult_1_l.
    rewrite <- Zle_Qle. lia.
Qed.

Lemma ratio_one a b : (0 < b)%nat -> (ratio a b == 1 <-> a = b).
Proof.
  intros Hb. unfold ratio.
  assert (~ inject_Z (Z.of_nat b) == 0) as Hne.
  { intros H. change 0 with (inject_Z 0) in H.
    apply (proj1 (inject_Z_injective (Z.of_nat b) 0)) in H. lia. }
  split.
  - intros H.
    assert (inject_Z (Z.of_nat a) == inject_Z (Z.of_nat b)) as E.
    { rewrite <- (Qmult_div_r (inject_Z (Z.of_nat a)) _ Hne), H.
      apply Qmult_1_r. }
    apply (proj1 (inject_Z_injective _ _)) in E. lia.
  - intros ->. apply Qmult_inv_r, Hne.
Qed.

(** For one query, precision, recall and F1 lie between 0 and 1, and the
    precision is 1 exactly when the list of retrieved document ids is not
    empty, holds no id twice and holds relevant ids only: a query that
    retrieves two chunks of one relevant document scores below 1. *)
Theorem retrieval_metrics_range retrieved relevant :
  0 <= precision retrieved relevant <= 1
  /\ 0 <= recall retrieved relevant <= 1
  /\ 0 <= f1_score (precision retrieved relevant) (recall retrieved relevant)
     <= 1
  /\ (precision retrieved relevant == 1
      <-> retrieved <> [] /\ NoDup retrieved
          /\ (forall x, x ∈ retrieved -> x ∈ relevant)).
Proof.
  assert (Hp : 0 <= precision retrieved relevant <= 1).
  { unfold precision. destruct retrieved as [|x l]; [split; discriminate|].
    apply ratio_bounds; [cbn; lia|apply true_positives_le_retrieved]. }
  assert (Hr : 0 <= recall retrieved relevant <= 1).
  { unfold recall. destruct relevant as [|x l]; [split; discriminate|].
    apply ratio_bounds; [cbn; lia|apply true_positives_le_relevant]. }
  split; [exact Hp|]. split; [exact Hr|]. split.
  - revert Hp Hr.
    generalize (precision retrieved relevant), (recall retrieved relevant).
    intros p r [Hp0 Hp1] [Hr0 Hr1]. unfold f1_score.
    destruct (Qlt_bool 0 (p + r)) eqn:E; [|split; discriminate].
    apply Qlt_bool_true in E. split.
    + apply Qle_shift_div_l; [exact E|]. rewrite Qmult_0_l.
      apply Qmult_le_0_compat; [|exact Hr0].
      apply Qmult_le_0_compat; [discriminate|exact Hp0].
    + apply Qle_shift_div_r; [exact E|]. rewrite Qmult_1_l.
      assert (p * r <= r) as H2.
      { rewrite <- (Qmult_1_l r) at 2. apply Qmult_le_compat_r; assumption. }
      assert (p * r <= p) as H1.
      { rewrite Qmult_comm. rewrite <- (Qmult_1_l p) at 2.
        apply Qmult_le_compat_r; assumption. }
      lra.
  - unfold precision. destruct retrieved as [|x l].
    + split; [discriminate|]. intros [H _]. congruence.
    + rewrite ratio_one by (cbn; lia). rewrite true_positives_all.
      split; [intros [? ?]; repeat split; auto; discriminate|].
      intros (_ & ? & ?). auto.
Qed.

Lemma retrieval_metrics_range_witness :
  ~ precision ["doc1"; "doc1"] ["doc1"] == 1.
Proof.
  intros H.
  apply (proj1 (proj2 (proj2 (proj2
           (retrieval_metrics_range ["doc1"; "doc1"] ["doc1"]))))) in H.
  destruct H as (_ & Hnd & _).
  apply NoDup_cons_1_1 in Hnd. apply Hnd, list_elem_of_here.
Defined.

End EvaluationFacts.

(** ** Code detection *)

Module CodeProcessorFacts.
Import PyStr Retriever CodeProcessor.

Local Arguments String.append !_ _ : simpl nomatch.

Lemma prefix_app_l a b : forall s,
  String.prefix (a +:+ b) s = true -> String.prefix a s = true.
Proof.
  induction a as [|c a IH]; intros s; [destruct s; reflexivity|].
  destruct s as [|d s]; simpl; [discriminate|].
  destruct (ascii_dec c d); [apply IH|discriminate].
Qed.

Lemma contains_app_l a b hay :
  contains (a +:+ b) hay = true -> contains a hay = true.
Proof.
  induction hay as [|c hay IH]; cbn [contains]; rewrite !orb_true_iff.
  - intros [H|H]; [|discriminate]. left. by apply prefix_app_l in H.
  - intros [H|H]; [left; by apply prefix_app_l in H|right; auto].
Qed.

Lemma contains_prefix needle hay :
  String.prefix needle hay = true -> contains needle hay = true.
Proof. intros H. destruct hay; cbn [contains]; rewrite H; reflexivity. Qed.

Lemma contains_tail c b hay :
  contains (String c b) hay = true -> contains b hay = true.
Proof.
  induction hay as [|d hay IH]; cbn [contains]; rewrite !orb_true_iff.
  - intros [H|H]; discriminate.
  - intros [H|H]; [|right; auto]. right. apply contains_prefix.
    simpl in H. destruct (ascii_dec c d); [exact H|discriminate].
Qed.

Lemma indicator_count_three text x y z :
  NoDup [x; y; z] ->
  x ∈ code_indicators -> y ∈ code_indicators -> z ∈ code_indicators ->
  contains x text = true -> contains y text = true ->
  contains z text = true ->
  (3 <= indicator_count text)%nat.
Proof.
  intros Hnd Hx Hy Hz Px Py Pz. unfold indicator_count.
  change 3%nat with (length [x; y; z]).
  apply submseteq_length, NoDup_submseteq; [exact Hnd|].
  intros w Hw. apply list_elem_of_In, filter_In.
  repeat (apply elem_of_cons in Hw as [->|Hw]);
    [split; [by apply list_elem_of_In|assumption]..|inversion Hw].
Qed.

Ltac indicator := apply (bool_decide_unpack _); vm_compute; reflexivity.

(** A text that contains one of the operators [<=], [>=] and [===] looks
    like code whatever else it says: the operator is counted together with
    the shorter indicators that are part of it. *)
Theorem comparison_operator_looks_like_code text :
  contains "<=" text = true \/ contains ">=" text = true
  \/ contains "===" text = true ->
  looks_like_code text = true.
Proof.
  intros H. unfold looks_like_code.
  enough (3 <= indicator_count text)%nat as Hc
    by (apply Nat.leb_le in Hc; rewrite Hc; reflexivity).
  destruct H as [H|[H|H]].
  - apply (indicator_count_three text "<" "=" "<=");
      [indicator..| | |exact H].
    + apply (contains_app_l "<" "="), H.
    + apply (contains_tail "<" "="), H.
  - apply (indicator_count_three text ">" "=" ">=");
      [indicator..| | |exact H].
    + apply (contains_app_l ">" "="), H.
    + apply (contains_tail ">" "="), H.
  - apply (indicator_count_three text "=" "==" "===");
      [indicator..| | |exact H].
    + apply (contains_app_l "=" "=="), H.
    + apply (contains_app_l "==" "="), H.
Qed.

Lemma comparison_operator_looks_like_code_witness :
  contains "<=" "keep the load <= 5 kg" = true
  /\ looks_like_code "keep the load <= 5 kg" = true.
Proof.
  assert (H : contains "<=" "keep the load <= 5 kg" = true) by reflexivity.
  split; [exact H|].
  apply comparison_operator_looks_like_code. left. exact H.
Defined.

End CodeProcessorFacts.
